(** * Shipyard configuration registry and dependency graph builder

    A shallow embedding of [pkg/config/config.go] (the resource registry,
    [FindResource], [AddResource], [DoYaLikeDAGs], [New], [ResourceCount])
    and of the block loop of [ParseHCLFile], with the theorems that settle
    the specification's claims about them.

    Go values are modelled as follows.
    - A [Resource] is an interface value holding a pointer to a struct that
      embeds [ResourceInfo]; it is a location into a heap of objects, so two
      resources with equal fields are still told apart, as in Go.
    - Methods with a pointer receiver [c *Config] run in a state monad over
      the heap and the configuration [c] points to.
    - A run-time panic (index out of range, nil dereference) is a result of
      its own, distinct from a returned [error]. *)

From Stdlib Require Import Ascii String.
From stdpp Require Import base option list gmap strings.

Local Open Scope string_scope.

#[local] Set Warnings "-clear-no-such-hyp".

(** ** Errors *)

Module Errors.

(** The error values the two source files return.  [ResourceNotFoundError]
    and [ResourceExistsError] are the structs of config.go; [Wrapped] is the
    value built by [xerrors.Errorf] with the [%w] verb; [errorString] is the
    value of [errors.New].

    [ErrorWANExists] is a package variable declared outside the two source
    files.  Modelled from the spec: a distinct "already exists" condition
    raised at load time. *)
Inductive error : Type :=
  | ResourceNotFoundError (Name : string)
  | ResourceExistsError (Name : string)
  | Wrapped (msg : string) (inner : error)
  | errorString (s : string)
  | ErrorWANExists.

(** Go's [==] on two error values of the struct types, which compares the
    type and the fields.  (On the pointer types behind [Wrapped] and
    [errorString] Go compares addresses; the code never passes one of those
    as the target of [xerrors.Is].) *)
Fixpoint error_eqb (a b : error) : bool :=
  match a, b with
  | ResourceNotFoundError x, ResourceNotFoundError y => String.eqb x y
  | ResourceExistsError x, ResourceExistsError y => String.eqb x y
  | Wrapped m x, Wrapped n y => String.eqb m n && error_eqb x y
  | errorString x, errorString y => String.eqb x y
  | ErrorWANExists, ErrorWANExists => true
  | _, _ => false
  end.

(** [xerrors.Unwrap]: only the value built with [%w] has an [Unwrap] method. *)
Definition Unwrap (e : error) : option error :=
  match e with
  | Wrapped _ inner => Some inner
  | _ => None
  end.

(** [xerrors.Is(err, target)] for a non-nil, comparable [target]: walk the
    chain of [err], comparing each link with [target] by [==].  None of the
    error types of the package has an [Is] method, so that branch of the
    library function never fires.  A nil [err] has no chain. *)
Fixpoint Is_chain (e target : error) : bool :=
  error_eqb e target ||
  match e with
  | Wrapped _ inner => Is_chain inner target
  | _ => false
  end.

Definition Is (err : option error) (target : error) : bool :=
  match err with
  | None => false
  | Some e => Is_chain e target
  end.

(** [xerrors.Errorf(msg + ": %w", err)]: wraps a non-nil [err]. *)
Definition Errorf (msg : string) (err : option error) : error :=
  match err with
  | Some e => Wrapped msg e
  | None => errorString msg
  end.

End Errors.
Export Errors.

(** ** Strings *)

(** [strings.Split(s, sep)] for a one-character separator: every substring
    between two separators, so the result has one more element than [s] has
    separators (and [Split "" sep = [""]]). *)
Fixpoint Split (s : string) (sep : ascii) : list string :=
  match s with
  | EmptyString => [EmptyString]
  | String ch rest =>
      if Ascii.eqb ch sep then EmptyString :: Split rest sep
      else match Split rest sep with
           | [] => [String ch EmptyString]
           | p :: ps => String ch p :: ps
           end
  end.

Definition dot : ascii := "."%char.

(** Does the character occur in the string ([strings.Contains])? *)
Fixpoint contains (s : string) (ch : ascii) : bool :=
  match s with
  | EmptyString => false
  | String x rest => Ascii.eqb x ch || contains rest ch
  end.

(** [fmt.Sprintf("%s.%s", t, n)] *)
Definition Sprintf_addr (t n : string) : string := t +:+ "." +:+ n.

(** ** Data model *)

Definition Status := string.
Definition ResourceType := string.

Definition Applied : Status := "applied".
Definition PendingCreation : Status := "pending_creation".
Definition PendingModification : Status := "pending_modification".
Definition Failed : Status := "failed".

Record ResourceInfo : Type := mkInfo {
  Name : string;
  Type_ : ResourceType;
  Status_ : Status;
  DependsOn : list string
}.

(** A heap object: a resource struct.  Every variant embeds [ResourceInfo];
    [Subnet] is the attribute of the network variant that [New] writes; the
    other attributes of the variants are not read by the registry or the
    graph builder and are left out. *)
Record Object : Type := mkObject {
  info : ResourceInfo;
  Subnet : string
}.

Definition loc := nat.

(** [Resource]: a non-nil interface value, the address of its struct. *)
Definition Resource := loc.

Record Config : Type := mkConfig {
  Blueprint : option loc;
  Resources : list Resource
}.

Record World : Type := mkWorld {
  heap : gmap loc Object;
  config : Config
}.

(** ** The monad of methods on [*Config] *)

Inductive panic : Type := IndexOutOfRange | NilDereference.

Inductive result (A : Type) : Type :=
  | Done (a : A)
  | Panic (p : panic).
Arguments Done {A} a.
Arguments Panic {A} p.

Definition M (A : Type) : Type := World -> result A * World.

Definition ret {A} (a : A) : M A := fun w => (Done a, w).

Definition bind {A B} (m : M A) (k : A -> M B) : M B :=
  fun w => match m w with
           | (Done a, w') => k a w'
           | (Panic p, w') => (Panic p, w')
           end.

Definition throw {A} (p : panic) : M A := fun w => (Panic p, w).

Notation "x <- m ;; k" := (bind m (fun x => k))
  (at level 100, m at next level, right associativity).

Definition getResources : M (list Resource) :=
  fun w => (Done (Resources (config w)), w).

Definition setResources (rs : list Resource) : M unit :=
  fun w => (Done tt, mkWorld (heap w) (mkConfig (Blueprint (config w)) rs)).

(** [r.Info()]: read the [ResourceInfo] embedded in the struct [r] points to. *)
Definition Info (r : Resource) : M ResourceInfo :=
  fun w => match heap w !! r with
           | Some o => (Done (info o), w)
           | None => (Panic NilDereference, w)
           end.

(** [parts[i]] *)
Definition index {A} (l : list A) (i : nat) : M A :=
  match l !! i with
  | Some a => ret a
  | None => throw IndexOutOfRange
  end.

(** ** The registry (config.go) *)

(** The loop of [FindResource].  Go's [&&] evaluates [parts[1]] only when the
    comparison of the type with [parts[0]] holds. *)
Fixpoint FindResource_loop (name : string) (parts : list string)
    (rs : list Resource) : M (option Resource * option error) :=
  match rs with
  | [] => ret (None, Some (ResourceNotFoundError name))
  | r :: rest =>
      i <- Info r ;;
      p0 <- index parts 0 ;;
      if String.eqb (Type_ i) p0 then
        i' <- Info r ;;
        p1 <- index parts 1 ;;
        if String.eqb (Name i') p1 then ret (Some r, None)
        else FindResource_loop name parts rest
      else FindResource_loop name parts rest
  end.

Definition FindResource (name : string) : M (option Resource * option error) :=
  rs <- getResources ;;
  FindResource_loop name (Split name dot) rs.

Definition AddResource (r : Resource) : M (option error) :=
  i <- Info r ;;
  i' <- Info r ;;
  found <- FindResource (Sprintf_addr (Type_ i) (Name i')) ;;
  let err := snd found in
  match err with
  | Some _ =>
      if Is err (ResourceNotFoundError "") then
        i'' <- Info r ;;
        ret (Some (ResourceExistsError (Name i'')))
      else
        rs <- getResources ;;
        _ <- setResources (rs ++ [r]) ;;
        ret None
  | None =>
      rs <- getResources ;;
      _ <- setResources (rs ++ [r]) ;;
      ret None
  end.

Definition ResourceCount : M nat :=
  rs <- getResources ;;
  ret (length rs).

(** ** The graph library (github.com/hashicorp/terraform/dag)

    The library is a dependency of the repository.  Of [dag.AcyclicGraph]
    the builder uses [Add], [Connect] and [BasicEdge] only.  A graph holds a
    set of vertices and a set of edges, both keyed by the vertex value (here
    the pointer; a vertex may be the nil interface).  [Add] inserts a vertex.
    [Connect] inserts an edge unless it is already there; it neither adds
    the end points to the vertex set nor looks for cycles (the library's
    cycle check is the separate method [Validate]). *)

Definition Vertex := option Resource.

Definition Edge : Type := Vertex * Vertex.

Record AcyclicGraph : Type := mkGraph {
  vertices : gset Vertex;
  edges : gset Edge
}.

Definition emptyGraph : AcyclicGraph := mkGraph ∅ ∅.

Definition BasicEdge (source target : Vertex) : Edge := (source, target).

Definition Add (g : AcyclicGraph) (v : Vertex) : AcyclicGraph :=
  mkGraph ({[v]} ∪ vertices g) (edges g).

Definition Connect (g : AcyclicGraph) (e : Edge) : AcyclicGraph :=
  mkGraph (vertices g) ({[e]} ∪ edges g).



(** ** The graph builder (config.go) *)

(** First loop of [DoYaLikeDAGs]. *)
Definition add_nodes (rs : list Resource) (g : AcyclicGraph) : AcyclicGraph :=
  fold_left (fun acc r => Add acc (Some r)) rs g.

(** Inner loop: the dependencies of one resource.  [inr e] is the early
    [return nil, e] of the source. *)
Fixpoint connect_deps (resource : Resource) (ds : list string)
    (g : AcyclicGraph) : M (AcyclicGraph + error) :=
  match ds with
  | [] => ret (inl g)
  | d :: rest =>
      found <- FindResource d ;;
      let '(dependency, err) := found in
      if Is err (ResourceNotFoundError "") then
        ret (inr (Errorf "Could not build graph from resources" err))
      else
        connect_deps resource rest
          (Connect g (BasicEdge dependency (Some resource)))
  end.

(** Second loop: every resource. *)
Fixpoint connect_all (rs : list Resource) (g : AcyclicGraph)
    : M (AcyclicGraph + error) :=
  match rs with
  | [] => ret (inl g)
  | resource :: rest =>
      i <- Info resource ;;
      step <- connect_deps resource (DependsOn i) g ;;
      match step with
      | inl g' => connect_all rest g'
      | inr e => ret (inr e)
      end
  end.

Definition DoYaLikeDAGs : M (option AcyclicGraph * option error) :=
  rs <- getResources ;;
  let graph := add_nodes rs emptyGraph in
  rs' <- getResources ;;
  built <- connect_all rs' graph ;;
  match built with
  | inl g => ret (Some g, None)
  | inr e => ret (None, Some e)
  end.

(** [NewNetwork] is declared outside the two source files.

    Modelled from the spec: a constructor of a resource variant sets the
    name and the type tag, and the initial status is always
    [PendingCreation]; nothing is registered by it. *)
Definition NewObject (t : ResourceType) (name : string) : Object :=
  mkObject (mkInfo name t PendingCreation []) "".

Definition alloc (h : gmap loc Object) (o : Object) : loc * gmap loc Object :=
  let l := fresh (dom h) in (l, <[l := o]> h).

Definition setSubnet (s : string) (o : Object) : Object :=
  mkObject (info o) s.

(** [New], given the tag of the network variant (the constant [TypeNetwork]
    is declared outside the two source files) and the heap it allocates
    in.  The result is the world whose configuration is the fresh [c]; the
    network built on the way is returned with it to make it observable. *)
Definition New (TypeNetwork : ResourceType) (h : gmap loc Object)
    : World * Resource :=
  let c := mkConfig None [] in
  let '(wan, h1) := alloc h (NewObject TypeNetwork "wan") in
  let h2 := alter (setSubnet "10.200.0.0/16") wan h1 in
  (mkWorld h2 c, wan).

(** ** The loader (the block loop of [ParseHCLFile]) *)

(** [hclsyntax.Block]: the block type, its labels, and its body, which only
    the decoder of the HCL library reads. *)
Record Block : Type := mkBlock {
  BType : string;
  Labels : list string;
  Body : list (string * string)
}.

(** What [parser.ParseHCLFile] and the cast of the body give for a file. *)
Inductive Parsed : Type :=
  | DiagErrors (msg : string)
  | NotSyntaxBody
  | SyntaxBody (Blocks : list Block).

Section Loader.

(** The type tags are constants declared outside the two source files. *)
Variables TypeCluster TypeNetwork TypeHelm TypeK8sConfig TypeIngress
          TypeContainer TypeDocs TypeExecLocal TypeExecRemote : ResourceType.

(** The HCL library: the parser, and [gohcl.DecodeBody] under the
    package's evaluation context, which fills the struct it is given and
    reports diagnostics. *)
Variable parse : string -> Parsed.
Variable DecodeBody : Block -> Object -> Object * option string.

(** [NewCluster], [NewNetwork], ... are declared outside the two source
    files: each allocates the struct of its variant, filled as [NewObject]
    says. *)
Definition NewResource (t : ResourceType) (name : string) : M Resource :=
  fun w =>
    let '(l, h) := alloc (heap w) (NewObject t name) in
    (Done l, mkWorld h (config w)).

Definition decodeBody (b : Block) (p : Resource) : M (option error) :=
  fun w =>
    match heap w !! p with
    | None => (Panic NilDereference, w)
    | Some o =>
        let '(o', diag) := DecodeBody b o in
        (Done (errorString <$> diag),
         mkWorld (<[p := o']> (heap w)) (config w))
    end.

(** The body shared by the cases of the switch: build the variant from the
    first label, decode the block into it, register it.  The result of
    [c.AddResource] is dropped by the source.  The calls of
    [ensureAbsolute] between the two rewrite path attributes of the
    variants, which [Object] leaves out. *)
Definition declare (t : ResourceType) (b : Block) : M (option error) :=
  name <- index (Labels b) 0 ;;
  r <- NewResource t name ;;
  err <- decodeBody b r ;;
  match err with
  | Some e => ret (Some e)
  | None => _ <- AddResource r ;; ret None
  end.

(** One iteration of the loop: the switch on [b.Type]. *)
Definition parse_block (b : Block) : M (option error) :=
  if String.eqb (BType b) TypeCluster then declare TypeCluster b
  else if String.eqb (BType b) TypeNetwork then
    name <- index (Labels b) 0 ;;
    if String.eqb name "wan" then ret (Some ErrorWANExists)
    else declare TypeNetwork b
  else if String.eqb (BType b) TypeHelm then declare TypeHelm b
  else if String.eqb (BType b) TypeK8sConfig then declare TypeK8sConfig b
  else if String.eqb (BType b) TypeIngress then declare TypeIngress b
  else if String.eqb (BType b) TypeContainer then declare TypeContainer b
  else if String.eqb (BType b) TypeDocs then declare TypeDocs b
  else if String.eqb (BType b) TypeExecLocal then declare TypeExecLocal b
  else if String.eqb (BType b) TypeExecRemote then declare TypeExecRemote b
  else ret None.

Fixpoint parse_blocks (bs : list Block) : M (option error) :=
  match bs with
  | [] => ret None
  | b :: rest =>
      err <- parse_block b ;;
      match err with
      | Some e => ret (Some e)
      | None => parse_blocks rest
      end
  end.

Definition ParseHCLFile (file : string) : M (option error) :=
  match parse file with
  | DiagErrors msg => ret (Some (errorString msg))
  | NotSyntaxBody => ret (Some (errorString "Error getting body"))
  | SyntaxBody blocks => parse_blocks blocks
  end.

End Loader.

(** ** Specification-side notions *)

(** Every registered resource points to a struct (no nil entry). *)
Definition allocated (w : World) : Prop :=
  Forall (fun r => is_Some (heap w !! r)) (Resources (config w)).

(** The resource [r] has type tag [t] and name [n] in the heap [h]. *)
Definition has_address (h : gmap loc Object) (t n : string) (r : Resource)
    : bool :=
  match h !! r with
  | Some o => String.eqb (Type_ (info o)) t && String.eqb (Name (info o)) n
  | None => false
  end.

(** A computation that leaves the heap and the configuration as they were. *)
Definition readonly {A} (m : M A) : Prop := forall w, snd (m w) = w.

(** The address [d] resolves to the registered resource [D]. *)
Definition resolves (w : World) (d : string) (D : Resource) : Prop :=
  fst (FindResource d w) = Done (Some D, None).




(** The loader's sequence of [c.AddResource] calls, results dropped. *)
Fixpoint AddResources (rs : list Resource) : M unit :=
  match rs with
  | [] => ret tt
  | r :: rest => _ <- AddResource r ;; AddResources rest
  end.

(** The world after [rs] were appended to the resource list. *)
Definition appended (w : World) (rs : list Resource) : World :=
  mkWorld (heap w) (mkConfig (Blueprint (config w)) (Resources (config w) ++ rs)).

(** The edge the builder adds for the address [d] listed by [R]: whatever
    the lookup returned as resource (nil when it failed) to [R]. *)
Definition edge_for (w : World) (R : Resource) (d : string) (e : Edge) : Prop :=
  exists dep err, fst (FindResource d w) = Done (dep, err) /\ e = (dep, Some R).

(** ** Concrete registries *)

Definition resource (t n : string) (deps : list string) : Object :=
  mkObject (mkInfo n t PendingCreation deps) "".

Definition emptyWorld : World := mkWorld ∅ (mkConfig None []).

(** [network.a] is registered; a second struct with the same type and name
    is about to be added. *)
Definition dup_world : World :=
  mkWorld (<[1 := resource "network" "a" []]>
             (<[0 := resource "network" "a" []]> ∅))
          (mkConfig None [0]).



(** [container.a] lists an address nothing is registered under. *)
Definition missing_world : World :=
  mkWorld (<[0 := resource "container" "a" ["network.missing"]]> ∅)
          (mkConfig None [0]).

Definition missing_graph : AcyclicGraph :=
  mkGraph {[Some 0]} {[(None, Some 0)]}.

(** [container.a] lists the empty address. *)
Definition blank_world : World :=
  mkWorld (<[0 := resource "container" "a" [""]]> ∅) (mkConfig None [0]).

(** A cluster is registered. *)
Definition cluster_world : World :=
  mkWorld (<[0 := resource "cluster" "k3s" []]> ∅) (mkConfig None [0]).

(** A network whose name contains the separator, not yet registered, and
    the same registry once it is. *)
Definition dotted_world : World :=
  mkWorld (<[0 := resource "network" "a.b" []]> ∅) (mkConfig None []).

Definition dotted_registered : World := appended dotted_world [0].

(** [network.a] is registered. *)
Definition plain_world : World :=
  mkWorld (<[0 := resource "network" "a" []]> ∅) (mkConfig None [0]).

(** A cluster is registered; a network and a container are built and about
    to be added. *)
Definition loading_world : World :=
  mkWorld (<[2 := resource "container" "c" ["network.a"]]>
             (<[1 := resource "network" "a" []]>
                (<[0 := resource "cluster" "k3s" []]> ∅)))
          (mkConfig None [0]).

(** A file with a cluster block and then a network block labelled [wan]. *)
Definition wan_blocks : list Block :=
  [mkBlock "cluster" ["k3s"] []; mkBlock "network" ["wan"] [("subnet", "10.0.0.0/16")]].

(** ** Notions for the loader and for lookups *)

(** The type tag and the name of what [r] points to, the two fields a
    lookup reads. *)
Definition identity (h : gmap loc Object) (r : Resource)
    : option (ResourceType * string) :=
  (fun o => (Type_ (info o), Name (info o))) <$> h !! r.

(** [w'] comes from [w] by allocating structs and appending resources: the
    blueprint is the same, the resource list of [w] is a prefix of the one
    of [w'], and every struct of [w] is in [w'] with the same fields. *)
Definition extends (w w' : World) : Prop :=
  Blueprint (config w') = Blueprint (config w) /\
  (exists added : list Resource,
     Resources (config w') = (Resources (config w) ++ added)%list) /\
  (forall l o, heap w !! l = Some o -> heap w' !! l = Some o).

(** A computation that only allocates and appends, however it ends. *)
Definition grows {A} (m : M A) : Prop := forall w, extends w (snd (m w)).

(** The block types the switch of [ParseHCLFile] has a case for. *)
Definition block_types (TypeCluster TypeNetwork TypeHelm TypeK8sConfig
    TypeIngress TypeContainer TypeDocs TypeExecLocal TypeExecRemote
    : ResourceType) : list ResourceType :=
  [TypeCluster; TypeNetwork; TypeHelm; TypeK8sConfig; TypeIngress;
   TypeContainer; TypeDocs; TypeExecLocal; TypeExecRemote].

(** A decoder that fills nothing in and reports nothing. *)
Definition decode_nothing (b : Block) (o : Object) : Object * option string :=
  (o, None).

(** A decoder that knows no attribute: it rejects a block whose body is not
    empty. *)
Definition decode_strict (b : Block) (o : Object) : Object * option string :=
  match Body b with
  | [] => (o, None)
  | _ :: _ => (o, Some "unsupported argument")
  end.

(** A file with a cluster, a helm chart whose body is not empty, and a
    container. *)
Definition helm_blocks : list Block :=
  [mkBlock "cluster" ["k3s"] [];
   mkBlock "helm" ["consul"] [("chart", "./consul")];
   mkBlock "container" ["c"] []].

(** A file whose block types are misspelt or foreign. *)
Definition foreign_blocks : list Block :=
  [mkBlock "clustr" ["k3s"] []; mkBlock "output" [] [("value", "1")]].

(** The [Error] methods of the two error structs of config.go. *)
Definition ResourceNotFoundError_Error (name : string) : string :=
  "Resource not found: " +:+ name.

Definition ResourceExistsError_Error (name : string) : string :=
  "Resource already exists: " +:+ name.

(** A block the loader can register: a known type, a first label that is
    not the reserved one, a body that decodes into the fresh variant. *)
Definition loadable (TypeNetwork : ResourceType) (types : list ResourceType)
    (DecodeBody : Block -> Object -> Object * option string) (b : Block)
    : Prop :=
  BType b ∈ types /\
  exists name ls, Labels b = name :: ls /\
    (BType b <> TypeNetwork \/ name <> "wan") /\
    snd (DecodeBody b (NewObject (BType b) name)) = None.

(** ** Lemmas on [Split] *)

Lemma Split_not_nil s sep : Split s sep <> [].
Proof.
  destruct s as [|ch rest]; simpl; [discriminate|].
  destruct (Ascii.eqb ch sep); [discriminate|].
  destruct (Split rest sep); discriminate.
Qed.

Lemma Split_no_sep s sep : contains s sep = false -> Split s sep = [s].
Proof.
  induction s as [|ch rest IH]; simpl; [reflexivity|].
  intros H. apply orb_false_iff in H as [Hch Hrest].
  rewrite Hch, (IH Hrest). reflexivity.
Qed.

Lemma Split_first_sep t n sep :
  contains t sep = false ->
  Split (t +:+ String sep n) sep = t :: Split n sep.
Proof.
  induction t as [|ch rest IH]; simpl.
  - intros _. rewrite Ascii.eqb_refl. reflexivity.
  - intros H. apply orb_false_iff in H as [Hch Hrest].
    rewrite Hch, (IH Hrest). reflexivity.
Qed.

Lemma Split_two t n sep :
  exists p0 p1 ps, Split (t +:+ String sep n) sep = p0 :: p1 :: ps.
Proof.
  induction t as [|ch rest IH]; simpl.
  - rewrite Ascii.eqb_refl.
    destruct (Split n sep) as [|p ps] eqn:E; [by apply Split_not_nil in E|].
    eauto.
  - destruct (Ascii.eqb ch sep).
    + destruct IH as (p0 & p1 & ps & ->). eauto.
    + destruct IH as (p0 & p1 & ps & ->). eauto.
Qed.


Lemma Sprintf_addr_eq t n : Sprintf_addr t n = t +:+ String dot n.
Proof. reflexivity. Qed.

Lemma append_not_empty t n sep : t +:+ String sep n <> "".
Proof. destruct t; discriminate. Qed.

(** ** Read-only computations *)

Lemma readonly_ret {A} (a : A) : readonly (ret a).
Proof. intros w. reflexivity. Qed.

Lemma readonly_throw {A} p : readonly (@throw A p).
Proof. intros w. reflexivity. Qed.

Lemma readonly_bind {A B} (m : M A) (k : A -> M B) :
  readonly m -> (forall a, readonly (k a)) -> readonly (bind m k).
Proof.
  intros Hm Hk w. unfold bind. specialize (Hm w).
  destruct (m w) as [[a|p] w']; simpl in Hm; subst w'.
  - apply Hk.
  - reflexivity.
Qed.

Lemma readonly_getResources : readonly getResources.
Proof. intros w. reflexivity. Qed.

Lemma readonly_Info r : readonly (Info r).
Proof. intros w. unfold Info. destruct (heap w !! r); reflexivity. Qed.

Lemma readonly_index {A} (l : list A) i : readonly (index l i).
Proof.
  unfold index. destruct (l !! i); [apply readonly_ret | apply readonly_throw].
Qed.

Create HintDb readonly.

#[local] Hint Resolve readonly_ret readonly_throw readonly_getResources
  readonly_Info readonly_index : readonly.

Ltac readonly_step :=
  first [ solve [ auto with readonly ]
        | apply readonly_bind; [ | intros ? ]
        | match goal with
          | |- readonly (if ?b then _ else _) => destruct b
          | |- readonly (match ?x with _ => _ end) => destruct x
          | |- readonly (let '(_, _) := ?x in _) => destruct x
          end ].

Lemma readonly_FindResource_loop name parts rs :
  readonly (FindResource_loop name parts rs).
Proof.
  induction rs as [|r rest IH]; simpl; repeat readonly_step; exact IH.
Qed.

Lemma readonly_FindResource name : readonly (FindResource name).
Proof.
  unfold FindResource. apply readonly_bind; [auto with readonly|].
  intros rs. apply readonly_FindResource_loop.
Qed.

#[local] Hint Resolve readonly_FindResource : readonly.

Lemma readonly_connect_deps resource ds :
  forall g, readonly (connect_deps resource ds g).
Proof.
  induction ds as [|d rest IH]; intros g; simpl; repeat readonly_step.
Qed.

Lemma readonly_connect_all rs : forall g, readonly (connect_all rs g).
Proof.
  induction rs as [|r rest IH]; intros g; simpl; repeat readonly_step.
  apply readonly_connect_deps.
Qed.

Lemma readonly_DoYaLikeDAGs : readonly DoYaLikeDAGs.
Proof.
  unfold DoYaLikeDAGs. repeat readonly_step. apply readonly_connect_all.
Qed.

(** ** What [FindResource] computes *)

Lemma Info_allocated w r o :
  heap w !! r = Some o -> Info r w = (Done (info o), w).
Proof. intros H. unfold Info. rewrite H. reflexivity. Qed.

(** With two segments or more the loop is a search for the first resource
    whose type is the first segment and whose name is the second. *)
Lemma FindResource_loop_two name p0 p1 ps rs w :
  Forall (fun r => is_Some (heap w !! r)) rs ->
  FindResource_loop name (p0 :: p1 :: ps) rs w =
    (Done (match List.find (has_address (heap w) p0 p1) rs with
           | Some r => (Some r, None)
           | None => (None, Some (ResourceNotFoundError name))
           end), w).
Proof.
  induction 1 as [|r rest [o Ho] _ IH]; [reflexivity|].
  simpl. unfold bind at 1. rewrite (Info_allocated _ _ _ Ho).
  unfold has_address at 1. rewrite Ho.
  unfold index; simpl. unfold bind at 1; simpl.
  destruct (String.eqb (Type_ (info o)) p0); simpl; [|exact IH].
  unfold bind at 1. rewrite (Info_allocated _ _ _ Ho).
  unfold bind at 1; simpl.
  destruct (String.eqb (Name (info o)) p1); [reflexivity | exact IH].
Qed.

(** With a single segment the loop ends in [ResourceNotFoundError] when no
    resource has that segment as its type. *)
Lemma FindResource_loop_one name p0 rs w :
  Forall (fun r => is_Some (heap w !! r)) rs ->
  (forall r o, r ∈ rs -> heap w !! r = Some o -> Type_ (info o) <> p0) ->
  FindResource_loop name [p0] rs w =
    (Done (None, Some (ResourceNotFoundError name)), w).
Proof.
  induction 1 as [|r rest [o Ho] _ IH]; intros Hty; [reflexivity|].
  simpl. unfold bind at 1. rewrite (Info_allocated _ _ _ Ho).
  unfold index; simpl. unfold bind at 1; simpl.
  destruct (String.eqb_spec (Type_ (info o)) p0) as [E|_].
  - exfalso. eapply Hty; [left | exact Ho | exact E].
  - apply IH. intros r' o' Hin. apply Hty. by right.
Qed.

Lemma find_has_address h t n rs r :
  List.find (has_address h t n) rs = Some r ->
  r ∈ rs /\ exists o, h !! r = Some o /\ Type_ (info o) = t /\ Name (info o) = n.
Proof.
  intros H. apply find_some in H as [Hin Hm]. split.
  - by apply list_elem_of_In.
  - unfold has_address in Hm. destruct (h !! r) as [o|]; [|discriminate].
    apply andb_true_iff in Hm as [Ht Hn].
    apply String.eqb_eq in Ht, Hn. eauto.
Qed.

Lemma find_app_first h t n pre r post :
  has_address h t n r = true ->
  (forall r', r' ∈ pre -> has_address h t n r' = false) ->
  List.find (has_address h t n) (pre ++ r :: post) = Some r.
Proof.
  intros Hr. induction pre as [|x pre IH]; intros Hpre; simpl.
  - by rewrite Hr.
  - rewrite (Hpre x) by left. apply IH. intros r' Hin. apply Hpre. by right.
Qed.

(** ** What [AddResource] computes *)

(** The lookup inside [AddResource] never panics, and its error, when there
    is one, carries a non-empty address and so is not equal to the zero
    value [ResourceNotFoundError{}]: the resource is appended either way. *)
Lemma AddResource_appends w r o :
  allocated w -> heap w !! r = Some o ->
  AddResource r w = (Done None, appended w [r]).
Proof.
  intros Hall Ho. unfold AddResource.
  unfold bind at 1. rewrite (Info_allocated _ _ _ Ho).
  unfold bind at 1. rewrite (Info_allocated _ _ _ Ho).
  unfold bind at 1. unfold FindResource, bind at 1, getResources.
  rewrite Sprintf_addr_eq.
  destruct (Split_two (Type_ (info o)) (Name (info o)) dot)
    as (p0 & p1 & ps & ->).
  rewrite FindResource_loop_two by exact Hall.
  destruct (List.find _ _) as [x|]; simpl.
  - reflexivity.
  - destruct (String.eqb_spec
      (Type_ (info o) +:+ String dot (Name (info o))) "") as [E|_].
    + by apply append_not_empty in E.
    + reflexivity.
Qed.

Lemma allocated_appended w rs :
  allocated w -> Forall (fun r => is_Some (heap w !! r)) rs ->
  allocated (appended w rs).
Proof. intros H1 H2. unfold allocated; simpl. by apply Forall_app. Qed.

Lemma appended_appended w rs1 rs2 :
  appended (appended w rs1) rs2 = appended w (rs1 ++ rs2).
Proof. unfold appended; simpl. by rewrite <- app_assoc. Qed.

Lemma AddResources_appends rs : forall w,
  allocated w -> Forall (fun r => is_Some (heap w !! r)) rs ->
  AddResources rs w = (Done tt, appended w rs).
Proof.
  induction rs as [|r rest IH]; intros w Hall Hrs; simpl.
  - unfold appended. rewrite app_nil_r. by destruct w as [h [b l]].
  - inversion Hrs as [|? ? [o Ho] Hrest]; subst.
    unfold bind. rewrite (AddResource_appends _ _ _ Hall Ho).
    rewrite IH.
    + by rewrite appended_appended.
    + apply allocated_appended; [done|]. constructor; [eauto | constructor].
    + exact Hrest.
Qed.

(** ** What [DoYaLikeDAGs] computes *)

Lemma run_readonly {A} (m : M A) w : readonly m -> m w = (fst (m w), w).
Proof. intros H. specialize (H w). destruct (m w); simpl in *. by subst. Qed.

Lemma add_nodes_vertices rs : forall g,
  vertices (add_nodes rs g) = list_to_set (Some <$> rs) ∪ vertices g.
Proof.
  unfold add_nodes.
  induction rs as [|r rest IH]; intros g; simpl.
  - set_solver.
  - rewrite IH. simpl. set_solver.
Qed.

Lemma add_nodes_edges rs : forall g, edges (add_nodes rs g) = edges g.
Proof.
  unfold add_nodes.
  induction rs as [|r rest IH]; intros g; simpl; [done|]. by rewrite IH.
Qed.

Lemma connect_deps_inl R ds : forall g g' w w',
  connect_deps R ds g w = (Done (inl g'), w') ->
  vertices g' = vertices g /\
  forall e, e ∈ edges g' <->
            e ∈ edges g \/ exists d, d ∈ ds /\ edge_for w R d e.
Proof.
  induction ds as [|d rest IH]; intros g g' w w' H; simpl in H.
  - inversion H; subst. split; [done|]. intros e. split; [auto|].
    intros [?|(d & Hd & _)]; [done|]. by apply elem_of_nil in Hd.
  - unfold bind in H.
    rewrite (run_readonly _ w (readonly_FindResource d)) in H.
    destruct (fst (FindResource d w)) as [[dep err]|p] eqn:E; [|discriminate].
    destruct (Is err (ResourceNotFoundError "")); [discriminate|].
    apply IH in H as [Hv He]. split; [by rewrite Hv|].
    intros e. rewrite He. simpl. rewrite elem_of_union, elem_of_singleton.
    split.
    + intros [[->|?]|(d' & Hd' & Hed)].
      * right. exists d. split; [left|]. exists dep, err. done.
      * by left.
      * right. exists d'. split; [by right | done].
    + intros [?|(d' & Hd' & Hed)]; [by left; right|].
      apply elem_of_cons in Hd' as [->|Hd'].
      * left; left. destruct Hed as (dep' & err' & E' & ->).
        rewrite E in E'. by inversion E'.
      * right. eauto.
Qed.


Lemma connect_all_inl rs : forall g g' w w',
  connect_all rs g w = (Done (inl g'), w') ->
  vertices g' = vertices g /\
  forall e, e ∈ edges g' <->
            e ∈ edges g \/
            exists R o d, R ∈ rs /\ heap w !! R = Some o /\
                          d ∈ DependsOn (info o) /\ edge_for w R d e.
Proof.
  induction rs as [|R rest IH]; intros g g' w w' H; simpl in H.
  - inversion H; subst. split; [done|]. intros e. split; [auto|].
    intros [?|(R & o & d & HR & _)]; [done|]. by apply elem_of_nil in HR.
  - unfold bind in H. unfold Info in H.
    destruct (heap w !! R) as [o|] eqn:Ho; [|discriminate].
    rewrite (run_readonly _ w (readonly_connect_deps R _ g)) in H.
    destruct (fst (connect_deps R (DependsOn (info o)) g w))
      as [[g1|e1]|p] eqn:E; [|discriminate|discriminate].
    assert (E1 : connect_deps R (DependsOn (info o)) g w = (Done (inl g1), w)).
    { rewrite (run_readonly _ w (readonly_connect_deps R _ g)). by rewrite E. }
    apply connect_deps_inl in E1 as [Hv1 He1].
    apply IH in H as [Hv He]. split; [by rewrite Hv|].
    intros e. rewrite He, He1. split.
    + intros [[?|(d & Hd & Hed)]|(R' & o' & d & HR' & Ho' & Hd & Hed)].
      * by left.
      * right. exists R, o, d. split; [left|]. done.
      * right. exists R', o', d. split; [by right|]. done.
    + intros [?|(R' & o' & d & HR' & Ho' & Hd & Hed)]; [by left; left|].
      apply elem_of_cons in HR' as [->|HR'].
      * left; right. rewrite Ho in Ho'. inversion Ho'; subst. eauto.
      * right. exists R', o', d. done.
Qed.


(** A returned graph has the registered resources as vertices and, for each
    address listed by a registered resource, the edge of [edge_for]. *)
Lemma DoYaLikeDAGs_graph w w' g err :
  DoYaLikeDAGs w = (Done (Some g, err), w') ->
  vertices g = list_to_set (Some <$> Resources (config w)) /\
  forall e, e ∈ edges g <->
            exists R o d, R ∈ Resources (config w) /\ heap w !! R = Some o /\
                          d ∈ DependsOn (info o) /\ edge_for w R d e.
Proof.
  unfold DoYaLikeDAGs, bind, getResources. intros H.
  destruct (connect_all _ _ w) as [[[g1|e1]|p] w1] eqn:E;
    [|discriminate|discriminate].
  inversion H; subst. apply connect_all_inl in E as [Hv He]. split.
  - rewrite Hv, add_nodes_vertices. simpl. set_solver.
  - intros e. rewrite He, add_nodes_edges. simpl. set_solver.
Qed.



(** ** Paths *)



(** ** The registry: insertion *)

(** C1.  The claim is that [AddResource] rejects a resource whose
    (Type, Name) address is already registered, with [ResourceExistsError],
    leaving the count as it was.  The code does not: with [network.a]
    registered, adding a second [network.a] returns a nil error and the
    count goes from 1 to 2. *)
Theorem AddResource_accepts_duplicate :
  fst (FindResource (Sprintf_addr "network" "a") dup_world)
    = Done (Some 0, None) /\
  fst (ResourceCount dup_world) = Done 1 /\
  fst (AddResource 1 dup_world) = Done None /\
  Resources (config (snd (AddResource 1 dup_world))) = [0; 1] /\
  fst (ResourceCount (snd (AddResource 1 dup_world))) = Done 2.
Proof. vm_compute. repeat split. Qed.

(** ** The graph builder: unresolved references *)

(** C3.  The claim is that one [DependsOn] address that matches no
    registered resource fails the build with a wrapped
    [ResourceNotFoundError] and no graph.  The code does not: the lookup of
    [network.missing] fails, yet the build returns a graph and a nil
    error.  The early return of the source is taken for the one address
    whose error equals the zero value [ResourceNotFoundError{}], the empty
    string. *)
Theorem DoYaLikeDAGs_accepts_unresolved :
  fst (FindResource "network.missing" missing_world)
    = Done (None, Some (ResourceNotFoundError "network.missing")) /\
  DoYaLikeDAGs missing_world
    = (Done (Some missing_graph, None), missing_world) /\
  DoYaLikeDAGs blank_world
    = (Done (None, Some (Wrapped "Could not build graph from resources"
                           (ResourceNotFoundError ""))), blank_world).
Proof. vm_compute. repeat split. Qed.

(** C6.  The claim is that a returned graph has the registered resources as
    nodes and no edge other than [D -> R] for a dependency [D] that [R]
    lists and that resolved.  The code returns, for the registry whose only
    resource lists the unresolved [network.missing], a graph with the edge
    from the nil vertex to that resource. *)
Theorem DoYaLikeDAGs_nil_edge :
  exists g, fst (DoYaLikeDAGs missing_world) = Done (Some g, None) /\
            vertices g = list_to_set (Some <$> Resources (config missing_world)) /\
            (None, Some 0) ∈ edges g /\
            forall D, ~ resolves missing_world "network.missing" D.
Proof.
  exists missing_graph. split; [vm_compute; reflexivity|].
  split; [vm_compute; reflexivity|]. split.
  - simpl. by apply elem_of_singleton.
  - intros D H. vm_compute in H. discriminate.
Qed.

(** ** The graph builder: frame *)

(** C8.  Graph building reads the registry only: whatever it returns (a
    graph, an error, or a panic), the resource list and every field of
    every resource, [Status] included, are what they were. *)
Theorem DoYaLikeDAGs_leaves_registry w :
  snd (DoYaLikeDAGs w) = w /\
  Resources (config (snd (DoYaLikeDAGs w))) = Resources (config w) /\
  forall r, heap (snd (DoYaLikeDAGs w)) !! r = heap w !! r.
Proof.
  pose proof (readonly_DoYaLikeDAGs w) as H. rewrite H. auto.
Qed.

(** ** The constructor *)

Lemma alloc_fresh h o : h !! fst (alloc h o) = None.
Proof.
  unfold alloc; simpl. apply not_elem_of_dom. apply is_fresh.
Qed.

(** C10.  [New] returns a configuration with a nil blueprint and no
    resource: the [wan] network it builds, with subnet 10.200.0.0/16, lives
    in the heap but is not registered, and a lookup of its address in the
    new registry finds nothing. *)
Theorem New_registers_nothing tn h :
  Blueprint (config (fst (New tn h))) = None /\
  Resources (config (fst (New tn h))) = [] /\
  fst (ResourceCount (fst (New tn h))) = Done 0 /\
  heap (fst (New tn h)) !! snd (New tn h)
    = Some (mkObject (mkInfo "wan" tn PendingCreation []) "10.200.0.0/16") /\
  h !! snd (New tn h) = None /\
  (snd (New tn h) ∉ Resources (config (fst (New tn h)))) /\
  fst (FindResource (Sprintf_addr tn "wan") (fst (New tn h)))
    = Done (None, Some (ResourceNotFoundError (Sprintf_addr tn "wan"))).
Proof.
  unfold New, alloc; simpl. repeat split.
  - rewrite lookup_alter_eq, lookup_insert_eq. reflexivity.
  - apply (alloc_fresh h (NewObject tn "wan")).
  - apply not_elem_of_nil.
Qed.

(** ** The graph builder: cycles *)







(** ** The registry: lookup *)

(** C4, as stated, fails twice over on an address without separator: the
    error of an empty registry is [ResourceNotFoundError], and with a
    resource of type [cluster] registered the lookup of ["cluster"] indexes
    the one-element split at 1. *)
Lemma FindResource_no_separator_counterexample :
  contains "cluster" dot = false /\
  FindResource "cluster" emptyWorld
    = (Done (None, Some (ResourceNotFoundError "cluster")), emptyWorld) /\
  fst (FindResource "cluster" cluster_world) = Panic IndexOutOfRange.
Proof. vm_compute. repeat split. Qed.

(** C4, amended.  For an address without separator, when no registered
    resource has the whole address as its type, the lookup returns
    [ResourceNotFoundError] with the address and does not panic. *)
Theorem FindResource_no_separator w addr :
  contains addr dot = false -> allocated w ->
  (forall r o, r ∈ Resources (config w) -> heap w !! r = Some o ->
     Type_ (info o) <> addr) ->
  FindResource addr w = (Done (None, Some (ResourceNotFoundError addr)), w).
Proof.
  intros Hdot Hall Hty. unfold FindResource, bind, getResources.
  rewrite (Split_no_sep _ _ Hdot).
  by apply FindResource_loop_one.
Qed.

Lemma FindResource_no_separator_witness :
  FindResource "cluster" plain_world
    = (Done (None, Some (ResourceNotFoundError "cluster")), plain_world).
Proof.
  apply (FindResource_no_separator plain_world "cluster").
  - reflexivity.
  - repeat constructor; vm_compute; eauto.
  - intros r o Hr Ho.
    apply list_elem_of_singleton in Hr as ->.
    vm_compute in Ho. inversion Ho; subst. simpl. discriminate.
Defined.

Lemma FindResource_loop_found name parts rs : forall w w' r err,
  FindResource_loop name parts rs w = (Done (Some r, err), w') ->
  r ∈ rs /\
  exists o, heap w !! r = Some o /\
            parts !! 0 = Some (Type_ (info o)) /\
            parts !! 1 = Some (Name (info o)).
Proof.
  induction rs as [|x rest IH]; intros w w' r err H; simpl in H.
  - inversion H.
  - assert (Hrest : FindResource_loop name parts rest w
                    = (Done (Some r, err), w') ->
                    r ∈ x :: rest /\
                    exists o, heap w !! r = Some o /\
                              parts !! 0 = Some (Type_ (info o)) /\
                              parts !! 1 = Some (Name (info o))).
    { intros H'. apply IH in H' as [Hin Ho]. split; [by right | exact Ho]. }
    unfold bind, Info, index in H.
    destruct (heap w !! x) as [o|] eqn:Ho; [|discriminate].
    destruct (parts !! 0) as [p0|] eqn:E0; simpl in H; [|discriminate].
    destruct (String.eqb_spec (Type_ (info o)) p0) as [Et|_]; [|auto].
    rewrite Ho in H.
    destruct (parts !! 1) as [p1|] eqn:E1; simpl in H; [|discriminate].
    destruct (String.eqb_spec (Name (info o)) p1) as [En|_]; [|auto].
    inversion H; subst. split; [left|]. eauto.
Qed.

(** C5, as stated, fails: a network named [a.b] is added without error,
    and the lookup of its address [network.a.b] finds nothing. *)
Lemma AddResource_FindResource_counterexample :
  heap dotted_world !! 0 = Some (resource "network" "a.b" []) /\
  AddResource 0 dotted_world = (Done None, dotted_registered) /\
  Sprintf_addr "network" "a.b" = "network.a.b" /\
  fst (FindResource "network.a.b" dotted_registered)
    = Done (None, Some (ResourceNotFoundError "network.a.b")).
Proof. vm_compute. repeat split. Qed.

(** C5, amended.  Let [r] be a resource whose type and name hold no
    separator and whose (Type, Name) no registered resource has.  Once
    [AddResource r] has returned, and after any further additions, the
    lookup of its address returns [r] itself, the pointer that was added. *)
Theorem AddResource_FindResource w r o later :
  allocated w -> heap w !! r = Some o ->
  Forall (fun x => is_Some (heap w !! x)) later ->
  contains (Type_ (info o)) dot = false ->
  contains (Name (info o)) dot = false ->
  (forall r', r' ∈ Resources (config w) ->
     has_address (heap w) (Type_ (info o)) (Name (info o)) r' = false) ->
  exists w1 w2,
    AddResource r w = (Done None, w1) /\
    AddResources later w1 = (Done tt, w2) /\
    heap w2 = heap w /\
    FindResource (Sprintf_addr (Type_ (info o)) (Name (info o))) w2
      = (Done (Some r, None), w2).
Proof.
  intros Hall Ho Hlater Ht Hn Hnew.
  assert (Hall1 : allocated (appended w [r])).
  { apply allocated_appended; [exact Hall|]. repeat constructor. eauto. }
  exists (appended w [r]), (appended (appended w [r]) later).
  split; [by apply (AddResource_appends w r o)|].
  split; [by apply AddResources_appends|].
  split; [reflexivity|].
  unfold FindResource, bind, getResources.
  rewrite Sprintf_addr_eq, (Split_first_sep _ _ _ Ht), (Split_no_sep _ _ Hn).
  rewrite FindResource_loop_two.
  - simpl. rewrite <- app_assoc. simpl. rewrite find_app_first; [done| |done].
    unfold has_address. rewrite Ho. by rewrite !String.eqb_refl.
  - apply allocated_appended; [exact Hall1 | exact Hlater].
Qed.

Lemma AddResource_FindResource_witness :
  exists w1 w2,
    AddResource 1 loading_world = (Done None, w1) /\
    AddResources [2] w1 = (Done tt, w2) /\
    heap w2 = heap loading_world /\
    FindResource (Sprintf_addr "network" "a") w2 = (Done (Some 1, None), w2).
Proof.
  apply (AddResource_FindResource loading_world 1
           (resource "network" "a" []) [2]).
  - repeat constructor; vm_compute; eauto.
  - reflexivity.
  - repeat constructor; vm_compute; eauto.
  - reflexivity.
  - reflexivity.
  - intros r' Hr'. apply list_elem_of_singleton in Hr' as ->.
    vm_compute. reflexivity.
Defined.




(** ** The loader: the reserved network *)

Section LoaderFacts.

Variables TypeCluster TypeNetwork TypeHelm TypeK8sConfig TypeIngress
          TypeContainer TypeDocs TypeExecLocal TypeExecRemote : ResourceType.
Variable parse : string -> Parsed.
Variable DecodeBody : Block -> Object -> Object * option string.

(** The tags are distinct constants; the switch reaches the network case
    only past the cluster case. *)
Hypothesis cluster_not_network : TypeCluster <> TypeNetwork.

Local Abbreviation block :=
  (parse_block TypeCluster TypeNetwork TypeHelm TypeK8sConfig TypeIngress
     TypeContainer TypeDocs TypeExecLocal TypeExecRemote DecodeBody).
Local Abbreviation blocks :=
  (parse_blocks TypeCluster TypeNetwork TypeHelm TypeK8sConfig TypeIngress
     TypeContainer TypeDocs TypeExecLocal TypeExecRemote DecodeBody).

Lemma parse_block_wan b ls w :
  BType b = TypeNetwork -> Labels b = "wan" :: ls ->
  block b w = (Done (Some ErrorWANExists), w).
Proof.
  intros Hty Hl. unfold parse_block. rewrite Hty.
  destruct (String.eqb_spec TypeNetwork TypeCluster) as [E|_];
    [by symmetry in E|].
  rewrite String.eqb_refl. unfold bind, index. rewrite Hl. reflexivity.
Qed.

Lemma parse_blocks_app pre rest : forall w w',
  blocks pre w = (Done None, w') ->
  blocks (pre ++ rest) w = blocks rest w'.
Proof.
  induction pre as [|b pre IH]; intros w w' H; simpl in *.
  - by inversion H.
  - unfold bind in *.
    destruct (parse_block _ _ _ _ _ _ _ _ _ _ b w) as [[[e|]|p] w1];
      try discriminate.
    by apply IH.
Qed.

(** C9.  When the blocks before it load without error, a block of type
    network whose first label is [wan] ends the load with
    [ErrorWANExists], in the state the earlier blocks left: no struct was
    built for it and [AddResource] was not called for it, so the check comes
    ahead of anything the registry does. *)
Theorem ParseHCLFile_wan file pre b post ls w w' :
  parse file = SyntaxBody (pre ++ b :: post) ->
  BType b = TypeNetwork -> Labels b = "wan" :: ls ->
  parse_blocks TypeCluster TypeNetwork TypeHelm TypeK8sConfig TypeIngress
    TypeContainer TypeDocs TypeExecLocal TypeExecRemote DecodeBody pre w
    = (Done None, w') ->
  ParseHCLFile TypeCluster TypeNetwork TypeHelm TypeK8sConfig TypeIngress
    TypeContainer TypeDocs TypeExecLocal TypeExecRemote parse DecodeBody
    file w
    = (Done (Some ErrorWANExists), w').
Proof.
  intros Hparse Hty Hl Hpre. unfold ParseHCLFile. rewrite Hparse.
  rewrite (parse_blocks_app _ _ _ _ Hpre).
  simpl. unfold bind.
  rewrite (parse_block_wan b ls w' Hty Hl). reflexivity.
Qed.

End LoaderFacts.

Lemma ParseHCLFile_wan_witness :
  let decode := fun (_ : Block) (o : Object) => (o, @None string) in
  let parse := fun _ : string => SyntaxBody wan_blocks in
  let w' := snd (parse_blocks "cluster" "network" "helm" "k8s_config"
                   "ingress" "container" "docs" "exec_local" "exec_remote"
                   decode [mkBlock "cluster" ["k3s"] []] emptyWorld) in
  Resources (config w') = [0] /\
  ParseHCLFile "cluster" "network" "helm" "k8s_config" "ingress" "container"
    "docs" "exec_local" "exec_remote" parse decode "main.hcl" emptyWorld
    = (Done (Some ErrorWANExists), w').
Proof.
  intros decode parse w'. split; [vm_compute; reflexivity|].
  apply (ParseHCLFile_wan "cluster" "network" "helm" "k8s_config" "ingress"
           "container" "docs" "exec_local" "exec_remote" parse decode
           ltac:(discriminate) "main.hcl"
           [mkBlock "cluster" ["k3s"] []]
           (mkBlock "network" ["wan"] [("subnet", "10.0.0.0/16")]) []
           [] emptyWorld w').
  - reflexivity.
  - reflexivity.
  - reflexivity.
  - vm_compute. reflexivity.
Defined.

(** * Further properties of the registry, the builder and the loader *)

(** ** Lookup *)

Lemma contains_Split_two s sep :
  contains s sep = true -> exists p0 p1 ps, Split s sep = p0 :: p1 :: ps.
Proof.
  induction s as [|ch rest IH]; simpl; [discriminate|].
  destruct (Ascii.eqb ch sep); simpl.
  - intros _. destruct (Split rest sep) as [|p ps] eqn:E;
      [by apply Split_not_nil in E | eauto].
  - intros H. destruct (IH H) as (p0 & p1 & ps & ->). eauto.
Qed.

Lemma FindResource_loop_shape name parts rs : forall w w' res,
  FindResource_loop name parts rs w = (Done res, w') ->
  (exists r, res = (Some r, None) /\ r ∈ rs) \/
  res = (None, Some (ResourceNotFoundError name)).
Proof.
  induction rs as [|x rest IH]; intros w w' res H; simpl in H.
  - inversion H. by right.
  - assert (Hrest : FindResource_loop name parts rest w = (Done res, w') ->
                    (exists r, res = (Some r, None) /\ r ∈ x :: rest) \/
                    res = (None, Some (ResourceNotFoundError name))).
    { intros H'. apply IH in H' as [(r & -> & Hin) | ->]; [left|by right].
      exists r. split; [done | by right]. }
    unfold bind, Info, index in H.
    destruct (heap w !! x) as [o|] eqn:Ho; [|discriminate].
    destruct (parts !! 0) as [p0|]; simpl in H; [|discriminate].
    destruct (String.eqb (Type_ (info o)) p0); [|auto].
    rewrite Ho in H.
    destruct (parts !! 1) as [p1|]; simpl in H; [|discriminate].
    destruct (String.eqb (Name (info o)) p1); [|auto].
    inversion H; subst. left. exists x. split; [done | left].
Qed.

Lemma FindResource_loop_panics name p0 rs w :
  Forall (fun r => is_Some (heap w !! r)) rs ->
  (exists r o, r ∈ rs /\ heap w !! r = Some o /\ Type_ (info o) = p0) ->
  FindResource_loop name [p0] rs w = (Panic IndexOutOfRange, w).
Proof.
  induction 1 as [|x rest [o Ho] _ IH]; intros (r & o' & Hin & Ho' & Hty).
  - by apply elem_of_nil in Hin.
  - simpl. unfold bind at 1. rewrite (Info_allocated _ _ _ Ho).
    unfold index; simpl. unfold bind at 1; simpl.
    destruct (String.eqb_spec (Type_ (info o)) p0) as [E|NE].
    + unfold bind. rewrite (Info_allocated _ _ _ Ho). reflexivity.
    + apply IH. apply elem_of_cons in Hin as [->|Hin].
      * rewrite Ho in Ho'. inversion Ho'; subst. done.
      * eauto.
Qed.

Lemma FindResource_loop_identity name parts rs : forall w1 w2,
  (forall r, r ∈ rs -> identity (heap w1) r = identity (heap w2) r) ->
  fst (FindResource_loop name parts rs w1)
    = fst (FindResource_loop name parts rs w2).
Proof.
  induction rs as [|x rest IH]; intros w1 w2 Hid; [reflexivity|].
  assert (Hrest : fst (FindResource_loop name parts rest w1)
                  = fst (FindResource_loop name parts rest w2)).
  { apply IH. intros r Hr. apply Hid. by right. }
  specialize (Hid x ltac:(left)). unfold identity in Hid.
  simpl. unfold bind, Info, index.
  destruct (heap w1 !! x) as [o1|] eqn:E1, (heap w2 !! x) as [o2|] eqn:E2;
    simpl in Hid; try discriminate; [|reflexivity].
  inversion Hid as [[Ht Hn]]. rewrite Ht.
  destruct (parts !! 0) as [p0|]; simpl; [|reflexivity].
  destruct (String.eqb (Type_ (info o2)) p0); [|exact Hrest].
  rewrite E1, E2, Hn.
  destruct (parts !! 1) as [p1|]; simpl; [|reflexivity].
  destruct (String.eqb (Name (info o2)) p1); [reflexivity | exact Hrest].
Qed.

(** X1.  For an address that holds a separator, on a registry without nil
    entry, [FindResource] does not panic: with [t] and [n] the first two
    segments of the address, it returns the first resource in registration
    order whose type is [t] and whose name is [n], with a nil error, or,
    when there is none, a nil resource and [ResourceNotFoundError] with the
    whole address. *)
Theorem FindResource_first_match w addr :
  allocated w -> contains addr dot = true ->
  exists t n,
    Split addr dot !! 0 = Some t /\ Split addr dot !! 1 = Some n /\
    FindResource addr w =
      (Done (match List.find (has_address (heap w) t n)
                     (Resources (config w)) with
             | Some r => (Some r, None)
             | None => (None, Some (ResourceNotFoundError addr))
             end), w).
Proof.
  intros Hall Hdot.
  destruct (contains_Split_two _ _ Hdot) as (p0 & p1 & ps & E).
  exists p0, p1. rewrite E. repeat split.
  unfold FindResource, bind, getResources. rewrite E.
  by apply FindResource_loop_two.
Qed.

Lemma FindResource_first_match_witness :
  exists t n,
    Split "cluster.k3s.x" dot !! 0 = Some t /\
    Split "cluster.k3s.x" dot !! 1 = Some n /\
    FindResource "cluster.k3s.x" loading_world =
      (Done (match List.find (has_address (heap loading_world) t n)
                     (Resources (config loading_world)) with
             | Some r => (Some r, None)
             | None => (None, Some (ResourceNotFoundError "cluster.k3s.x"))
             end), loading_world).
Proof.
  apply (FindResource_first_match loading_world "cluster.k3s.x").
  - repeat constructor; vm_compute; eauto.
  - reflexivity.
Defined.

(** X2.  For an address without separator, on a registry without nil entry
    in which some resource has the whole address as its type,
    [FindResource] panics with an index out of range, the registry being
    left as it was. *)
Theorem FindResource_panics_on_type w addr :
  allocated w -> contains addr dot = false ->
  (exists r o, r ∈ Resources (config w) /\ heap w !! r = Some o /\
               Type_ (info o) = addr) ->
  FindResource addr w = (Panic IndexOutOfRange, w).
Proof.
  intros Hall Hdot Hex. unfold FindResource, bind, getResources.
  rewrite (Split_no_sep _ _ Hdot). by apply FindResource_loop_panics.
Qed.

Lemma FindResource_panics_on_type_witness :
  FindResource "cluster" loading_world = (Panic IndexOutOfRange, loading_world).
Proof.
  apply (FindResource_panics_on_type loading_world "cluster").
  - repeat constructor; vm_compute; eauto.
  - reflexivity.
  - exists 0, (resource "cluster" "k3s" []).
    split; [by apply list_elem_of_singleton|]. split; reflexivity.
Defined.

(** X3.  Whenever [FindResource] returns, exactly one of its two results is
    nil: either a registered resource with a nil error, or a nil resource
    with [ResourceNotFoundError] carrying the address as it was passed; and
    the registry is as it was. *)
Theorem FindResource_result_shape w w' addr res :
  FindResource addr w = (Done res, w') ->
  w' = w /\
  ((exists r o, res = (Some r, None) /\ r ∈ Resources (config w) /\
                heap w !! r = Some o) \/
   res = (None, Some (ResourceNotFoundError addr))).
Proof.
  intros H. split.
  - pose proof (readonly_FindResource addr w) as Hro. by rewrite H in Hro.
  - unfold FindResource, bind, getResources in H.
    destruct (FindResource_loop_shape _ _ _ _ _ _ H) as [(r & -> & Hin) | ->];
      [left | by right].
    apply FindResource_loop_found in H as [_ (o & Ho & _)]. eauto.
Qed.

Lemma FindResource_result_shape_witness :
  loading_world = loading_world /\
  ((exists r o, (Some 0, @None error) = (Some r, None) /\
                r ∈ Resources (config loading_world) /\
                heap loading_world !! r = Some o) \/
   (Some 0, @None error) = (None, Some (ResourceNotFoundError "cluster.k3s"))).
Proof.
  apply (FindResource_result_shape loading_world loading_world "cluster.k3s").
  vm_compute. reflexivity.
Defined.

(** X4.  The result of a lookup depends on the resource list and on the
    type and name of the registered resources only: two registries with the
    same list whose resources agree on type and name give the same result,
    whatever the status, the dependencies and the other attributes are. *)
Theorem FindResource_reads_identity_only w1 w2 addr :
  Resources (config w1) = Resources (config w2) ->
  (forall r, r ∈ Resources (config w1) ->
     identity (heap w1) r = identity (heap w2) r) ->
  fst (FindResource addr w1) = fst (FindResource addr w2).
Proof.
  intros Hrs Hid. unfold FindResource, bind, getResources. rewrite <- Hrs.
  pose proof (FindResource_loop_identity addr (Split addr dot)
                (Resources (config w1)) w1 w2 Hid) as H.
  destruct (FindResource_loop _ _ _ w1) as [res1 s1],
           (FindResource_loop _ _ _ w2) as [res2 s2].
  exact H.
Qed.

Lemma FindResource_reads_identity_only_witness :
  fst (FindResource "network.a" plain_world)
  = fst (FindResource "network.a"
           (mkWorld (<[0 := mkObject (mkInfo "a" "network" Applied ["cluster.k3s"])
                              "10.0.0.0/16"]> ∅)
                    (mkConfig None [0]))).
Proof.
  apply (FindResource_reads_identity_only plain_world).
  - reflexivity.
  - intros r Hr. apply list_elem_of_singleton in Hr as ->.
    vm_compute. reflexivity.
Defined.

(** ** Insertion *)

Lemma find_app_l {A} (f : A -> bool) l l' x :
  List.find f l = Some x -> List.find f (l ++ l') = Some x.
Proof.
  induction l as [|a l IH]; simpl; [discriminate|].
  destruct (f a); [done | exact IH].
Qed.

Lemma list_lookup_two {A} (l : list A) a b :
  l !! 0 = Some a -> l !! 1 = Some b -> exists ps, l = a :: b :: ps.
Proof.
  destruct l as [|x [|y ps]]; simpl; try discriminate.
  intros [= ->] [= ->]. eauto.
Qed.

(** X5.  [AddResource] never returns an error.  For a registry without nil
    entry and a resource [r], whatever is registered already, the call
    returns nil, [r] is the new last element of the resource list, the
    count is one more, and no struct, that of [r] included, is written. *)
Theorem AddResource_never_rejects w r o :
  allocated w -> heap w !! r = Some o ->
  exists w',
    AddResource r w = (Done None, w') /\
    Resources (config w') = (Resources (config w) ++ [r])%list /\
    Blueprint (config w') = Blueprint (config w) /\
    heap w' = heap w /\
    fst (ResourceCount w') = Done (S (length (Resources (config w)))).
Proof.
  intros Hall Ho. exists (appended w [r]).
  split; [by apply (AddResource_appends w r o)|].
  repeat split. simpl. rewrite length_app. simpl. f_equal. lia.
Qed.

Lemma AddResource_never_rejects_witness :
  exists w',
    AddResource 1 dup_world = (Done None, w') /\
    Resources (config w') = (Resources (config dup_world) ++ [1])%list /\
    Blueprint (config w') = Blueprint (config dup_world) /\
    heap w' = heap dup_world /\
    fst (ResourceCount w') = Done (S (length (Resources (config dup_world)))).
Proof.
  apply (AddResource_never_rejects dup_world 1 (resource "network" "a" [])).
  - repeat constructor; vm_compute; eauto.
  - reflexivity.
Defined.

(** X6.  Adding a resource does not change what an address that was found
    before resolves to: a lookup that returned [r0] returns [r0] after any
    [AddResource], also when the added resource has the same type and
    name. *)
Theorem AddResource_keeps_lookups w r o addr r0 err :
  allocated w -> heap w !! r = Some o ->
  fst (FindResource addr w) = Done (Some r0, err) ->
  exists w',
    AddResource r w = (Done None, w') /\
    FindResource addr w' = (Done (Some r0, None), w').
Proof.
  intros Hall Ho Hfind. exists (appended w [r]).
  split; [by apply (AddResource_appends w r o)|].
  rewrite (run_readonly _ w (readonly_FindResource addr)) in Hfind.
  simpl in Hfind.
  assert (Hfull : FindResource addr w = (Done (Some r0, err), w)).
  { rewrite (run_readonly _ w (readonly_FindResource addr)). by rewrite Hfind. }
  unfold FindResource, bind, getResources in Hfull.
  pose proof Hfull as Hfound.
  apply FindResource_loop_found in Hfound as [_ (o0 & _ & E0 & E1)].
  destruct (list_lookup_two _ _ _ E0 E1) as [ps E].
  rewrite E in Hfull. rewrite FindResource_loop_two in Hfull by exact Hall.
  unfold FindResource, bind, getResources. rewrite E.
  rewrite FindResource_loop_two.
  - simpl.
    destruct (List.find _ (Resources (config w))) as [x|] eqn:Ef;
      [|by inversion Hfull].
    inversion Hfull; subst x. by rewrite (find_app_l _ _ _ _ Ef).
  - apply allocated_appended; [exact Hall|]. repeat constructor. eauto.
Qed.

Lemma AddResource_keeps_lookups_witness :
  exists w',
    AddResource 1 dup_world = (Done None, w') /\
    FindResource "network.a" w' = (Done (Some 0, None), w').
Proof.
  apply (AddResource_keeps_lookups dup_world 1 (resource "network" "a" [])
           "network.a" 0 None).
  - repeat constructor; vm_compute; eauto.
  - reflexivity.
  - vm_compute. reflexivity.
Defined.

(** X7.  A resource added under an address that is already taken cannot be
    looked up: when [r0] is the first registered resource with the type and
    the name of [r] (both without separator), the lookup of that address
    after [AddResource r] still returns [r0], which is not [r] unless [r]
    itself had been registered before. *)
Theorem AddResource_duplicate_shadowed w r o r0 :
  allocated w -> heap w !! r = Some o ->
  contains (Type_ (info o)) dot = false ->
  contains (Name (info o)) dot = false ->
  List.find (has_address (heap w) (Type_ (info o)) (Name (info o)))
            (Resources (config w)) = Some r0 ->
  exists w',
    AddResource r w = (Done None, w') /\
    FindResource (Sprintf_addr (Type_ (info o)) (Name (info o))) w'
      = (Done (Some r0, None), w') /\
    (r ∉ Resources (config w) -> r0 <> r).
Proof.
  intros Hall Ho Ht Hn Hfind. exists (appended w [r]).
  split; [by apply (AddResource_appends w r o)|]. split.
  - unfold FindResource, bind, getResources.
    rewrite Sprintf_addr_eq, (Split_first_sep _ _ _ Ht), (Split_no_sep _ _ Hn).
    rewrite FindResource_loop_two.
    + simpl. by rewrite (find_app_l _ _ _ _ Hfind).
    + apply allocated_appended; [exact Hall|]. repeat constructor. eauto.
  - intros Hnotin ->. apply Hnotin.
    apply find_has_address in Hfind as [Hin _]. exact Hin.
Qed.

Lemma AddResource_duplicate_shadowed_witness :
  exists w',
    AddResource 1 dup_world = (Done None, w') /\
    FindResource (Sprintf_addr "network" "a") w' = (Done (Some 0, None), w') /\
    (1 ∉ Resources (config dup_world) -> 0 <> 1).
Proof.
  apply (AddResource_duplicate_shadowed dup_world 1
           (resource "network" "a" []) 0).
  - repeat constructor; vm_compute; eauto.
  - reflexivity.
  - reflexivity.
  - reflexivity.
  - vm_compute. reflexivity.
Defined.

(** ** Graph building *)

Lemma FindResource_done_shape w d dep err :
  fst (FindResource d w) = Done (dep, err) ->
  (exists r, dep = Some r /\ err = None /\ r ∈ Resources (config w)) \/
  (dep = None /\ err = Some (ResourceNotFoundError d)).
Proof.
  intros H.
  assert (Hfull : FindResource d w = (Done (dep, err), w)).
  { rewrite (run_readonly _ w (readonly_FindResource d)). by rewrite H. }
  unfold FindResource, bind, getResources in Hfull.
  apply FindResource_loop_shape in Hfull as [(r & E & Hin) | E];
    inversion E; subst; [left; eauto | by right].
Qed.

Lemma Is_not_found_zero d :
  Is (Some (ResourceNotFoundError d)) (ResourceNotFoundError "") = true ->
  d = "".
Proof.
  simpl. rewrite orb_false_r. apply String.eqb_eq.
Qed.

Lemma connect_deps_inr R ds : forall g e w w',
  connect_deps R ds g w = (Done (inr e), w') ->
  e = Wrapped "Could not build graph from resources" (ResourceNotFoundError "")
  /\ "" ∈ ds.
Proof.
  induction ds as [|d rest IH]; intros g e w w' H; simpl in H;
    [discriminate|].
  unfold bind in H.
  rewrite (run_readonly _ w (readonly_FindResource d)) in H.
  destruct (fst (FindResource d w)) as [[dep err]|p] eqn:E; [|discriminate].
  destruct (Is err (ResourceNotFoundError "")) eqn:EIs.
  - apply FindResource_done_shape in E as [(r & -> & -> & _) | [-> ->]];
      [discriminate|].
    apply Is_not_found_zero in EIs as ->.
    inversion H; subst. split; [reflexivity | left].
  - apply IH in H as [-> Hin]. split; [reflexivity | by right].
Qed.

Lemma connect_all_inr rs : forall g e w w',
  connect_all rs g w = (Done (inr e), w') ->
  e = Wrapped "Could not build graph from resources" (ResourceNotFoundError "")
  /\ exists R o, R ∈ rs /\ heap w !! R = Some o /\ "" ∈ DependsOn (info o).
Proof.
  induction rs as [|R rest IH]; intros g e w w' H; simpl in H;
    [discriminate|].
  unfold bind, Info in H.
  destruct (heap w !! R) as [o|] eqn:Ho; [|discriminate].
  rewrite (run_readonly _ w (readonly_connect_deps R _ g)) in H.
  destruct (fst (connect_deps R (DependsOn (info o)) g w))
    as [[g1|e1]|p] eqn:E; [| |discriminate].
  - apply IH in H as [-> (R' & o' & Hin & Ho' & Hd)]. split; [reflexivity|].
    exists R', o'. split; [by right | split; assumption].
  - inversion H; subst e1 w'.
    assert (E1 : connect_deps R (DependsOn (info o)) g w = (Done (inr e), w)).
    { rewrite (run_readonly _ w (readonly_connect_deps R _ g)). by rewrite E. }
    apply connect_deps_inr in E1 as [-> Hd]. split; [reflexivity|].
    exists R, o. split; [left | split; assumption].
Qed.

Lemma connect_deps_separators w R ds : forall g,
  allocated w ->
  (forall d, d ∈ ds -> contains d dot = true) ->
  exists g', connect_deps R ds g w = (Done (inl g'), w).
Proof.
  induction ds as [|d rest IH]; intros g Hall Hsep; simpl; [by eexists|].
  assert (Hd : contains d dot = true) by (apply Hsep; left).
  destruct (contains_Split_two _ _ Hd) as (p0 & p1 & ps & E).
  unfold bind. unfold FindResource at 1, bind, getResources. rewrite E.
  rewrite FindResource_loop_two by exact Hall.
  assert (Hrest : forall g0, exists g',
            connect_deps R rest g0 w = (Done (inl g'), w)).
  { intros g0. apply IH; [exact Hall|]. intros d' Hd'. apply Hsep. by right. }
  destruct (List.find _ _) as [x|]; simpl; [apply Hrest|].
  destruct (String.eqb_spec d "") as [->|_]; [discriminate | apply Hrest].
Qed.

Lemma connect_all_separators w rs : forall g,
  allocated w ->
  Forall (fun r => is_Some (heap w !! r)) rs ->
  (forall R o d, R ∈ rs -> heap w !! R = Some o -> d ∈ DependsOn (info o) ->
     contains d dot = true) ->
  exists g', connect_all rs g w = (Done (inl g'), w).
Proof.
  induction rs as [|R rest IH]; intros g Hall Hrs Hsep; simpl; [by eexists|].
  inversion Hrs as [|? ? [o Ho] Hrest]; subst.
  unfold bind. rewrite (Info_allocated _ _ _ Ho).
  destruct (connect_deps_separators w R (DependsOn (info o)) g Hall)
    as [g1 ->].
  { intros d Hd. eapply Hsep; [left | exact Ho | exact Hd]. }
  apply IH; [exact Hall | exact Hrest |].
  intros R' o' d HR'. apply Hsep. by right.
Qed.

(** X8.  In a graph the builder returns the error is nil, the vertices are
    the registered resources and nothing else, the target of every edge is
    a vertex, and the source of every edge is a vertex or nil, nil being
    what a failed lookup leaves as dependency. *)
Theorem DoYaLikeDAGs_edge_endpoints w w' g err :
  DoYaLikeDAGs w = (Done (Some g, err), w') ->
  err = None /\
  (forall v, v ∈ vertices g <-> exists r, v = Some r /\ r ∈ Resources (config w))
  /\ forall s t, (s, t) ∈ edges g ->
       t ∈ vertices g /\ (s = None \/ s ∈ vertices g).
Proof.
  intros H.
  assert (Hv : forall v, v ∈ vertices g <->
                         exists r, v = Some r /\ r ∈ Resources (config w)).
  { apply DoYaLikeDAGs_graph in H as [-> _]. intros v.
    rewrite elem_of_list_to_set, list_elem_of_fmap. naive_solver. }
  split; [|split; [exact Hv|]].
  - unfold DoYaLikeDAGs, bind, getResources in H.
    destruct (connect_all _ _ w) as [[[g1|e1]|p] w1]; by inversion H.
  - intros s t Hst. apply DoYaLikeDAGs_graph in H as [_ He].
    apply He in Hst as (R & o & d & HR & _ & _ & dep & err' & Hfind & E).
    inversion E; subst. split; [apply Hv; eauto|].
    apply FindResource_done_shape in Hfind as [(r & -> & _ & Hr) | [-> _]];
      [right; apply Hv; eauto | by left].
Qed.

Lemma DoYaLikeDAGs_edge_endpoints_witness :
  @None error = None /\
  (forall v, v ∈ vertices missing_graph <->
             exists r, v = Some r /\ r ∈ Resources (config missing_world))
  /\ forall s t, (s, t) ∈ edges missing_graph ->
       t ∈ vertices missing_graph /\ (s = None \/ s ∈ vertices missing_graph).
Proof.
  apply (DoYaLikeDAGs_edge_endpoints missing_world missing_world).
  vm_compute. reflexivity.
Defined.



(** X10.  The one error the builder can return is the wrapped
    [ResourceNotFoundError] of the empty address: when it returns an error,
    the graph is nil, the error is that value, and some registered resource
    lists the empty string among its dependencies. *)
Theorem DoYaLikeDAGs_only_error w w' g e :
  DoYaLikeDAGs w = (Done (g, Some e), w') ->
  g = None /\
  e = Wrapped "Could not build graph from resources" (ResourceNotFoundError "")
  /\ exists R o, R ∈ Resources (config w) /\ heap w !! R = Some o /\
                 "" ∈ DependsOn (info o).
Proof.
  unfold DoYaLikeDAGs, bind, getResources. intros H.
  destruct (connect_all _ _ w) as [[[g1|e1]|p] w1] eqn:E;
    inversion H; subst.
  split; [reflexivity|]. by apply connect_all_inr in E.
Qed.

Lemma DoYaLikeDAGs_only_error_witness :
  @None AcyclicGraph = None /\
  Wrapped "Could not build graph from resources" (ResourceNotFoundError "")
  = Wrapped "Could not build graph from resources" (ResourceNotFoundError "")
  /\ exists R o, R ∈ Resources (config blank_world) /\
                 heap blank_world !! R = Some o /\ "" ∈ DependsOn (info o).
Proof.
  apply (DoYaLikeDAGs_only_error blank_world blank_world).
  vm_compute. reflexivity.
Defined.

(** X11.  When every listed address holds a separator, on a registry
    without nil entry, the build neither panics nor fails: it returns a
    graph and a nil error, whether the addresses resolve or not. *)
Theorem DoYaLikeDAGs_total_with_separators w :
  allocated w ->
  (forall R o d, R ∈ Resources (config w) -> heap w !! R = Some o ->
     d ∈ DependsOn (info o) -> contains d dot = true) ->
  exists g, DoYaLikeDAGs w = (Done (Some g, None), w).
Proof.
  intros Hall Hsep. unfold DoYaLikeDAGs, bind, getResources.
  destruct (connect_all_separators w (Resources (config w))
              (add_nodes (Resources (config w)) emptyGraph) Hall Hall Hsep)
    as [g ->].
  by exists g.
Qed.

Lemma DoYaLikeDAGs_total_with_separators_witness :
  exists g, DoYaLikeDAGs missing_world = (Done (Some g, None), missing_world).
Proof.
  apply (DoYaLikeDAGs_total_with_separators missing_world).
  - repeat constructor; vm_compute; eauto.
  - intros R o d HR Ho Hd. apply list_elem_of_singleton in HR as ->.
    vm_compute in Ho. inversion Ho; subst. simpl in Hd.
    apply list_elem_of_singleton in Hd as ->. reflexivity.
Defined.

(** ** Loading *)

Lemma extends_refl w : extends w w.
Proof. split; [done|]. split; [|done]. exists []. by rewrite app_nil_r. Qed.

Lemma extends_trans w1 w2 w3 : extends w1 w2 -> extends w2 w3 -> extends w1 w3.
Proof.
  intros (Hb1 & [a1 Hr1] & Hh1) (Hb2 & [a2 Hr2] & Hh2). split; [congruence|].
  split; [|auto]. exists (a1 ++ a2)%list. by rewrite Hr2, Hr1, app_assoc.
Qed.

Lemma extends_appended w rs : extends w (appended w rs).
Proof. split; [done|]. split; [by exists rs | done]. Qed.

(** Whatever [AddResource] returns, it has appended its argument or done
    nothing. *)
Lemma AddResource_state r w :
  snd (AddResource r w) = w \/ snd (AddResource r w) = appended w [r].
Proof.
  unfold AddResource, bind, Info.
  destruct (heap w !! r) as [o|] eqn:Ho; [|by left].
  cbv beta iota. rewrite Ho. cbv beta iota.
  rewrite (run_readonly _ w (readonly_FindResource _)).
  destruct (fst (FindResource _ w)) as [[res err]|p]; simpl; [|by left].
  destruct err as [e|]; simpl; [|by right].
  destruct (Is_chain e (ResourceNotFoundError "")); simpl; [|by right].
  rewrite Ho. by left.
Qed.

Lemma AddResource_grows r : grows (AddResource r).
Proof.
  intros w. destruct (AddResource_state r w) as [-> | ->];
    [apply extends_refl | apply extends_appended].
Qed.

Lemma extends_fresh_insert w o0 o' :
  extends w (mkWorld (<[fst (alloc (heap w) o0) := o']>
                        (<[fst (alloc (heap w) o0) := o0]> (heap w)))
                     (config w)).
Proof.
  split; [done|]. split; [exists []; by rewrite app_nil_r|].
  intros l o Hl. simpl.
  assert (fresh (dom (heap w)) <> l).
  { intros <-. pose proof (alloc_fresh (heap w) o0) as Hf. simpl in Hf.
    congruence. }
  by rewrite !lookup_insert_ne.
Qed.

Lemma allocated_extends w w' :
  allocated w -> extends w w' ->
  Resources (config w') = Resources (config w) -> allocated w'.
Proof.
  intros Hall (_ & _ & Hh) Hrs. unfold allocated. rewrite Hrs.
  eapply Forall_impl; [exact Hall|]. intros r [o Ho]. eauto.
Qed.

Section LoaderMore.

Variables TypeCluster TypeNetwork TypeHelm TypeK8sConfig TypeIngress
          TypeContainer TypeDocs TypeExecLocal TypeExecRemote : ResourceType.
Variable parse : string -> Parsed.
Variable DecodeBody : Block -> Object -> Object * option string.

Local Abbreviation types :=
  (block_types TypeCluster TypeNetwork TypeHelm TypeK8sConfig TypeIngress
     TypeContainer TypeDocs TypeExecLocal TypeExecRemote).
Local Abbreviation block :=
  (parse_block TypeCluster TypeNetwork TypeHelm TypeK8sConfig TypeIngress
     TypeContainer TypeDocs TypeExecLocal TypeExecRemote DecodeBody).
Local Abbreviation blocks :=
  (parse_blocks TypeCluster TypeNetwork TypeHelm TypeK8sConfig TypeIngress
     TypeContainer TypeDocs TypeExecLocal TypeExecRemote DecodeBody).

Lemma declare_grows t b : grows (declare DecodeBody t b).
Proof.
  intros w. unfold declare, bind, index, NewResource, decodeBody.
  destruct (Labels b !! 0) as [name|]; simpl; [|apply extends_refl].
  rewrite lookup_insert_eq.
  destruct (DecodeBody b (NewObject t name)) as [o' [msg|]]; simpl.
  - apply (extends_fresh_insert w (NewObject t name) o').
  - eapply extends_trans;
      [apply (extends_fresh_insert w (NewObject t name) o')|].
    match goal with
    | |- context [AddResource ?l ?w2] =>
        pose proof (AddResource_grows l w2) as Hg;
        destruct (AddResource l w2) as [[a|p] w3]; exact Hg
    end.
Qed.

(** For a block of a known type whose first label is not [wan] the switch
    runs the shared body with the type of the block. *)
Lemma parse_block_known b w :
  BType b ∈ types ->
  BType b <> TypeNetwork \/ Labels b !! 0 <> Some "wan" ->
  block b w = declare DecodeBody (BType b) b w.
Proof.
  intros Hin Hwan. unfold parse_block.
  destruct (String.eqb_spec (BType b) TypeCluster) as [<-|N1]; [done|].
  destruct (String.eqb_spec (BType b) TypeNetwork) as [<-|N2].
  { destruct Hwan as [?|Hwan]; [done|].
    unfold bind at 1. unfold index at 1.
    destruct (Labels b !! 0) as [name|] eqn:E; simpl.
    - destruct (String.eqb_spec name "wan") as [->|_]; [done | reflexivity].
    - unfold declare, bind, index. by rewrite E. }
  destruct (String.eqb_spec (BType b) TypeHelm) as [<-|N3]; [done|].
  destruct (String.eqb_spec (BType b) TypeK8sConfig) as [<-|N4]; [done|].
  destruct (String.eqb_spec (BType b) TypeIngress) as [<-|N5]; [done|].
  destruct (String.eqb_spec (BType b) TypeContainer) as [<-|N6]; [done|].
  destruct (String.eqb_spec (BType b) TypeDocs) as [<-|N7]; [done|].
  destruct (String.eqb_spec (BType b) TypeExecLocal) as [<-|N8]; [done|].
  destruct (String.eqb_spec (BType b) TypeExecRemote) as [<-|N9]; [done|].
  exfalso. unfold block_types in Hin.
  repeat (apply elem_of_cons in Hin as [Hin|Hin]; [done|]).
  by apply elem_of_nil in Hin.
Qed.

Lemma parse_block_unknown b w :
  BType b ∉ types -> block b w = (Done None, w).
Proof.
  intros Hnot. unfold parse_block.
  repeat match goal with
  | |- context [String.eqb (BType b) ?t] =>
      destruct (String.eqb_spec (BType b) t) as [E|_];
        [exfalso; apply Hnot; rewrite E; unfold block_types;
         repeat first [apply list_elem_of_here | apply list_elem_of_further]|]
  end.
  reflexivity.
Qed.

Lemma parse_block_grows b : grows (block b).
Proof.
  intros w. unfold parse_block.
  repeat match goal with
  | |- context [String.eqb (BType b) ?t] =>
      destruct (String.eqb (BType b) t); [try apply declare_grows|]
  end; [|apply extends_refl].
  unfold bind at 1. unfold index at 1.
  destruct (Labels b !! 0) as [name|]; simpl; [|apply extends_refl].
  destruct (String.eqb name "wan"); [apply extends_refl | apply declare_grows].
Qed.

Lemma parse_blocks_grows bs : grows (blocks bs).
Proof.
  induction bs as [|b rest IH]; intros w; simpl; [apply extends_refl|].
  unfold bind. pose proof (parse_block_grows b w) as Hb.
  destruct (parse_block _ _ _ _ _ _ _ _ _ _ b w) as [[[e|]|p] w1];
    simpl in *; try exact Hb.
  eapply extends_trans; [exact Hb | apply IH].
Qed.

End LoaderMore.

Section LoaderProperties.

Variables TypeCluster TypeNetwork TypeHelm TypeK8sConfig TypeIngress
          TypeContainer TypeDocs TypeExecLocal TypeExecRemote : ResourceType.
Variable parse : string -> Parsed.
Variable DecodeBody : Block -> Object -> Object * option string.

(** X12.  Loading a file only allocates and appends, however it ends (nil,
    an error or a panic): the blueprint is untouched, the resources
    registered before are still registered, first and in the same order,
    and no struct that existed is written. *)
Theorem ParseHCLFile_only_appends file w :
  extends w
    (snd (ParseHCLFile TypeCluster TypeNetwork TypeHelm TypeK8sConfig
            TypeIngress TypeContainer TypeDocs TypeExecLocal TypeExecRemote
            parse DecodeBody file w)).
Proof.
  unfold ParseHCLFile.
  destruct (parse file) as [msg| |bs]; try apply extends_refl.
  apply parse_blocks_grows.
Qed.

(** X13.  The load stops at the first block that returns an error: the
    blocks after it are not looked at, the error is the result of the load,
    and what the earlier blocks registered stays registered. *)
Theorem ParseHCLFile_stops_at_first_error file pre b post e w w' w'' :
  parse file = SyntaxBody (pre ++ b :: post) ->
  parse_blocks TypeCluster TypeNetwork TypeHelm TypeK8sConfig TypeIngress
    TypeContainer TypeDocs TypeExecLocal TypeExecRemote DecodeBody pre w
    = (Done None, w') ->
  parse_block TypeCluster TypeNetwork TypeHelm TypeK8sConfig TypeIngress
    TypeContainer TypeDocs TypeExecLocal TypeExecRemote DecodeBody b w'
    = (Done (Some e), w'') ->
  ParseHCLFile TypeCluster TypeNetwork TypeHelm TypeK8sConfig TypeIngress
    TypeContainer TypeDocs TypeExecLocal TypeExecRemote parse DecodeBody
    file w
    = (Done (Some e), w'') /\
  extends w w' /\ extends w' w''.
Proof.
  intros Hparse Hpre Hb. split; [|split].
  - unfold ParseHCLFile. rewrite Hparse.
    rewrite (parse_blocks_app _ _ _ _ _ _ _ _ _ _ _ _ _ _ Hpre).
    simpl. unfold bind. by rewrite Hb.
  - pose proof (parse_blocks_grows TypeCluster TypeNetwork TypeHelm
                  TypeK8sConfig TypeIngress TypeContainer TypeDocs
                  TypeExecLocal TypeExecRemote DecodeBody pre w) as H.
    by rewrite Hpre in H.
  - pose proof (parse_block_grows TypeCluster TypeNetwork TypeHelm
                  TypeK8sConfig TypeIngress TypeContainer TypeDocs
                  TypeExecLocal TypeExecRemote DecodeBody b w') as H.
    by rewrite Hb in H.
Qed.

Lemma parse_block_success b name ls o' w :
  BType b ∈ block_types TypeCluster TypeNetwork TypeHelm TypeK8sConfig
              TypeIngress TypeContainer TypeDocs TypeExecLocal TypeExecRemote ->
  Labels b = name :: ls ->
  BType b <> TypeNetwork \/ name <> "wan" ->
  allocated w ->
  DecodeBody b (NewObject (BType b) name) = (o', None) ->
  exists l w',
    parse_block TypeCluster TypeNetwork TypeHelm TypeK8sConfig TypeIngress
      TypeContainer TypeDocs TypeExecLocal TypeExecRemote DecodeBody b w
      = (Done None, w') /\
    heap w !! l = None /\
    heap w' = <[l := o']> (heap w) /\
    Resources (config w') = (Resources (config w) ++ [l])%list /\
    Blueprint (config w') = Blueprint (config w) /\
    allocated w'.
Proof.
  intros Hin Hl Hwan Hall Hdec.
  rewrite parse_block_known;
    [|exact Hin | rewrite Hl; simpl; destruct Hwan; [by left | right; congruence]].
  pose proof (alloc_fresh (heap w) (NewObject (BType b) name)) as Hfresh.
  pose proof (extends_fresh_insert w (NewObject (BType b) name) o') as Hext.
  unfold declare, bind, index, NewResource, decodeBody. rewrite Hl. simpl.
  rewrite lookup_insert_eq, Hdec. simpl in *.
  set (l := fresh (dom (heap w))) in *.
  set (w2 := mkWorld _ (config w)) in *.
  assert (Hall2 : allocated w2) by (by apply (allocated_extends w w2)).
  assert (Hl2 : heap w2 !! l = Some o') by apply lookup_insert_eq.
  rewrite (AddResource_appends w2 l o' Hall2 Hl2).
  exists l, (appended w2 [l]).
  split; [reflexivity|]. split; [exact Hfresh|].
  split; [simpl; apply insert_insert_eq|].
  split; [reflexivity|]. split; [reflexivity|].
  apply allocated_appended; [exact Hall2|]. repeat constructor. eauto.
Qed.

(** X14.  A block of one of the nine types, with a first label (other than
    [wan] for a network) and a body that decodes, registers exactly one
    resource: a struct that did not exist, holding what the decoder made of
    the fresh variant, becomes the last element of the resource list; the
    result is nil, also when the address is taken already. *)
Theorem parse_block_registers b name ls o' w :
  BType b ∈ block_types TypeCluster TypeNetwork TypeHelm TypeK8sConfig
              TypeIngress TypeContainer TypeDocs TypeExecLocal TypeExecRemote ->
  Labels b = name :: ls ->
  BType b <> TypeNetwork \/ name <> "wan" ->
  allocated w ->
  DecodeBody b (NewObject (BType b) name) = (o', None) ->
  exists l w',
    parse_block TypeCluster TypeNetwork TypeHelm TypeK8sConfig TypeIngress
      TypeContainer TypeDocs TypeExecLocal TypeExecRemote DecodeBody b w
      = (Done None, w') /\
    heap w !! l = None /\
    heap w' = <[l := o']> (heap w) /\
    Resources (config w') = (Resources (config w) ++ [l])%list /\
    Blueprint (config w') = Blueprint (config w).
Proof.
  intros Hin Hl Hwan Hall Hdec.
  destruct (parse_block_success b name ls o' w Hin Hl Hwan Hall Hdec)
    as (l & w' & H1 & H2 & H3 & H4 & H5 & _).
  exists l, w'. auto.
Qed.

(** X15.  A block of one of the nine types whose body does not decode
    registers nothing: the diagnostics come back as the error and the
    resource list is as it was (the struct built for the block is left
    behind in the heap). *)
Theorem parse_block_decode_error b name ls o' msg w :
  BType b ∈ block_types TypeCluster TypeNetwork TypeHelm TypeK8sConfig
              TypeIngress TypeContainer TypeDocs TypeExecLocal TypeExecRemote ->
  Labels b = name :: ls ->
  BType b <> TypeNetwork \/ name <> "wan" ->
  DecodeBody b (NewObject (BType b) name) = (o', Some msg) ->
  exists l w',
    parse_block TypeCluster TypeNetwork TypeHelm TypeK8sConfig TypeIngress
      TypeContainer TypeDocs TypeExecLocal TypeExecRemote DecodeBody b w
      = (Done (Some (errorString msg)), w') /\
    heap w !! l = None /\
    heap w' = <[l := o']> (heap w) /\
    config w' = config w.
Proof.
  intros Hin Hl Hwan Hdec.
  rewrite parse_block_known;
    [|exact Hin | rewrite Hl; simpl; destruct Hwan; [by left | right; congruence]].
  pose proof (alloc_fresh (heap w) (NewObject (BType b) name)) as Hfresh.
  unfold declare, bind, index, NewResource, decodeBody. rewrite Hl. simpl.
  rewrite lookup_insert_eq, Hdec. simpl in *.
  eexists _, _. split; [reflexivity|]. split; [exact Hfresh|].
  split; [apply insert_insert_eq | reflexivity].
Qed.

(** X16.  Blocks of a type the switch has no case for are skipped without
    a word: a file that holds such blocks only loads with a nil error and
    changes nothing. *)
Theorem ParseHCLFile_ignores_unknown_types file bs w :
  parse file = SyntaxBody bs ->
  Forall (fun b => BType b ∉ block_types TypeCluster TypeNetwork TypeHelm
                      TypeK8sConfig TypeIngress TypeContainer TypeDocs
                      TypeExecLocal TypeExecRemote) bs ->
  ParseHCLFile TypeCluster TypeNetwork TypeHelm TypeK8sConfig TypeIngress
    TypeContainer TypeDocs TypeExecLocal TypeExecRemote parse DecodeBody
    file w
    = (Done None, w).
Proof.
  intros Hparse Hbs. unfold ParseHCLFile. rewrite Hparse. clear Hparse.
  induction Hbs as [|b rest Hb _ IH]; simpl; [reflexivity|].
  unfold bind. rewrite parse_block_unknown by exact Hb.
  exact IH.
Qed.

(** X17.  A block of one of the nine types without label makes the load
    panic with an index out of range, nothing having been built or
    registered for it. *)
Theorem parse_block_without_label_panics b w :
  BType b ∈ block_types TypeCluster TypeNetwork TypeHelm TypeK8sConfig
              TypeIngress TypeContainer TypeDocs TypeExecLocal TypeExecRemote ->
  Labels b = [] ->
  parse_block TypeCluster TypeNetwork TypeHelm TypeK8sConfig TypeIngress
    TypeContainer TypeDocs TypeExecLocal TypeExecRemote DecodeBody b w
    = (Panic IndexOutOfRange, w).
Proof.
  intros Hin Hl.
  rewrite parse_block_known; [|exact Hin | right; by rewrite Hl].
  unfold declare, bind, index. by rewrite Hl.
Qed.

(** X18.  A file whose blocks are all loadable loads with a nil error and
    registers one resource for each block: the count grows by the number of
    blocks, and the registry is again without nil entry. *)
Theorem ParseHCLFile_registers_every_block file bs w :
  parse file = SyntaxBody bs ->
  allocated w ->
  Forall (loadable TypeNetwork
            (block_types TypeCluster TypeNetwork TypeHelm TypeK8sConfig
               TypeIngress TypeContainer TypeDocs TypeExecLocal
               TypeExecRemote) DecodeBody) bs ->
  exists w',
    ParseHCLFile TypeCluster TypeNetwork TypeHelm TypeK8sConfig TypeIngress
      TypeContainer TypeDocs TypeExecLocal TypeExecRemote parse DecodeBody
      file w
      = (Done None, w') /\
    allocated w' /\
    fst (ResourceCount w')
      = Done (length (Resources (config w)) + length bs).
Proof.
  intros Hparse Hall Hbs. unfold ParseHCLFile. rewrite Hparse. clear Hparse.
  revert w Hall.
  induction Hbs as [|b rest Hb _ IH]; intros w Hall; simpl.
  - exists w. split; [reflexivity|]. split; [exact Hall|].
    simpl. f_equal. lia.
  - destruct Hb as [Hin (name & ls & Hl & Hwan & Hdec)].
    destruct (DecodeBody b (NewObject (BType b) name)) as [o' d] eqn:E.
    simpl in Hdec; subst d.
    destruct (parse_block_success b name ls o' w Hin Hl Hwan Hall E)
      as (l & w1 & H1 & _ & _ & Hrs & _ & Hall1).
    unfold bind. rewrite H1.
    destruct (IH w1 Hall1) as (w' & Hrest & Hall' & Hcount).
    exists w'. split; [exact Hrest|]. split; [exact Hall'|].
    simpl in Hcount. injection Hcount as Hc.
    simpl. f_equal. rewrite Hc, Hrs, length_app. simpl. lia.
Qed.

End LoaderProperties.

Lemma ParseHCLFile_stops_at_first_error_witness :
  exists w' w'',
    ParseHCLFile "cluster" "network" "helm" "k8s_config" "ingress" "container"
      "docs" "exec_local" "exec_remote" (fun _ => SyntaxBody helm_blocks)
      decode_strict "main.hcl" emptyWorld
      = (Done (Some (errorString "unsupported argument")), w'') /\
    extends emptyWorld w' /\ extends w' w''.
Proof.
  eexists _, _.
  apply (ParseHCLFile_stops_at_first_error "cluster" "network" "helm"
           "k8s_config" "ingress" "container" "docs" "exec_local"
           "exec_remote" (fun _ => SyntaxBody helm_blocks) decode_strict
           "main.hcl" [mkBlock "cluster" ["k3s"] []]
           (mkBlock "helm" ["consul"] [("chart", "./consul")])
           [mkBlock "container" ["c"] []]
           (errorString "unsupported argument") emptyWorld).
  - reflexivity.
  - vm_compute. reflexivity.
  - vm_compute. reflexivity.
Defined.

Lemma parse_block_registers_witness :
  exists l w',
    parse_block "cluster" "network" "helm" "k8s_config" "ingress" "container"
      "docs" "exec_local" "exec_remote" decode_nothing
      (mkBlock "cluster" ["k3s"] []) loading_world
      = (Done None, w') /\
    heap loading_world !! l = None /\
    heap w' = <[l := NewObject "cluster" "k3s"]> (heap loading_world) /\
    Resources (config w') = (Resources (config loading_world) ++ [l])%list /\
    Blueprint (config w') = Blueprint (config loading_world).
Proof.
  apply (parse_block_registers "cluster" "network" "helm" "k8s_config"
           "ingress" "container" "docs" "exec_local" "exec_remote"
           decode_nothing (mkBlock "cluster" ["k3s"] []) "k3s" []
           (NewObject "cluster" "k3s") loading_world).
  - repeat constructor.
  - reflexivity.
  - left. discriminate.
  - repeat constructor; vm_compute; eauto.
  - reflexivity.
Defined.

Lemma parse_block_decode_error_witness :
  exists l w',
    parse_block "cluster" "network" "helm" "k8s_config" "ingress" "container"
      "docs" "exec_local" "exec_remote" decode_strict
      (mkBlock "helm" ["consul"] [("chart", "./consul")]) loading_world
      = (Done (Some (errorString "unsupported argument")), w') /\
    heap loading_world !! l = None /\
    heap w' = <[l := NewObject "helm" "consul"]> (heap loading_world) /\
    config w' = config loading_world.
Proof.
  apply (parse_block_decode_error "cluster" "network" "helm" "k8s_config"
           "ingress" "container" "docs" "exec_local" "exec_remote"
           decode_strict (mkBlock "helm" ["consul"] [("chart", "./consul")])
           "consul" [] (NewObject "helm" "consul") "unsupported argument"
           loading_world).
  - repeat constructor.
  - reflexivity.
  - left. discriminate.
  - reflexivity.
Defined.

Lemma ParseHCLFile_ignores_unknown_types_witness :
  ParseHCLFile "cluster" "network" "helm" "k8s_config" "ingress" "container"
    "docs" "exec_local" "exec_remote" (fun _ => SyntaxBody foreign_blocks)
    decode_nothing "main.hcl" loading_world
  = (Done None, loading_world).
Proof.
  apply (ParseHCLFile_ignores_unknown_types "cluster" "network" "helm"
           "k8s_config" "ingress" "container" "docs" "exec_local"
           "exec_remote" (fun _ => SyntaxBody foreign_blocks) decode_nothing
           "main.hcl" foreign_blocks loading_world).
  - reflexivity.
  - repeat constructor; simpl; unfold block_types; intros H;
      repeat (apply elem_of_cons in H as [H|H]; [discriminate|]);
      by apply elem_of_nil in H.
Defined.

Lemma parse_block_without_label_panics_witness :
  parse_block "cluster" "network" "helm" "k8s_config" "ingress" "container"
    "docs" "exec_local" "exec_remote" decode_nothing
    (mkBlock "docs" [] []) loading_world
  = (Panic IndexOutOfRange, loading_world).
Proof.
  apply (parse_block_without_label_panics "cluster" "network" "helm"
           "k8s_config" "ingress" "container" "docs" "exec_local"
           "exec_remote" decode_nothing (mkBlock "docs" [] []) loading_world).
  - repeat constructor.
  - reflexivity.
Defined.

Lemma ParseHCLFile_registers_every_block_witness :
  exists w',
    ParseHCLFile "cluster" "network" "helm" "k8s_config" "ingress" "container"
      "docs" "exec_local" "exec_remote" (fun _ => SyntaxBody helm_blocks)
      decode_nothing "main.hcl" loading_world
      = (Done None, w') /\
    allocated w' /\
    fst (ResourceCount w')
      = Done (length (Resources (config loading_world)) + length helm_blocks).
Proof.
  apply (ParseHCLFile_registers_every_block "cluster" "network" "helm"
           "k8s_config" "ingress" "container" "docs" "exec_local"
           "exec_remote" (fun _ => SyntaxBody helm_blocks) decode_nothing
           "main.hcl" helm_blocks loading_world).
  - reflexivity.
  - repeat constructor; vm_compute; eauto.
  - repeat constructor; simpl;
      solve [ repeat constructor
            | eexists _, _; split; [reflexivity|];
              split; [left; discriminate | reflexivity] ].
Defined.

(** ** Error messages *)

(** X19.  The message of a [ResourceNotFoundError] and that of a
    [ResourceExistsError] tell the error: equal messages of one kind come
    from equal names, and no message of one kind is a message of the
    other. *)
Theorem Error_messages_tell_errors a b :
  (ResourceNotFoundError_Error a = ResourceNotFoundError_Error b -> a = b) /\
  (ResourceExistsError_Error a = ResourceExistsError_Error b -> a = b) /\
  ResourceNotFoundError_Error a <> ResourceExistsError_Error b.
Proof.
  unfold ResourceNotFoundError_Error, ResourceExistsError_Error.
  simpl. repeat split.
  - intros H. by inversion H.
  - intros H. by inversion H.
  - discriminate.
Qed.
